(** * Keyboard navigation mixin of dialtone-vue: highlight index tracking

    A shallow embedding of [keyboardNavigationMixin] (the mixin that tracks the
    highlighted position of a list rendered by its host component), and the
    properties of its navigation operations.

    Modelling conventions.
    - The component instance [this] is split into the mixin's own reactive
      [Data] (the fields named by [indexKey] and [idKey], plus the two flags
      copied into [data ()]) and the [Host] that supplies [this[listElementKey]]
      and [this[activeItemKey]].
    - A JavaScript value that is either [undefined] or a number (a string) is an
      [option Z] (an [option string]); the numbers that reach the mixin are
      integers, and a sum on them is the double's while it stays between
      [-2^53] and [2^53].
    - The list element is known through the two DOM queries the mixin makes on
      it, so it is modelled as the sequence of its descendant elements in
      document order, each with its [role] attribute and its [id] property.
      A DOM node is identified by its position in that sequence.
    - Host methods called through a configured name ([openMethod],
      [afterHighlightMethod], ...) are opaque: a call is recorded in the event
      log, returns normally and does not write the mixin's data.
    - [async] methods run synchronously up to their [await]; the continuation
      is queued and runs at the next tick ([nextTick]). *)

From Stdlib Require Import ZArith NArith List String Ascii Bool Lia.
From Stdlib Require Import DecimalString DecimalN Permutation.
Import ListNotations.
Open Scope string_scope.
Open Scope list_scope.
Open Scope Z_scope.

(** ** JavaScript values *)

(** [undefined] or an integer. *)
Definition jsnum := option Z.

(** [undefined] or a string. *)
Definition jsstr := option string.

(** Truthiness of an optional method name: [null] and [''] are falsy. *)
Definition truthy (m : option string) : option string :=
  match m with
  | Some "" => None
  | Some name => Some name
  | None => None
  end.

(** ** The mixin's options (the destructured parameter of the factory)

    [indexKey], [idKey], [listElementKey] and [activeItemKey] only name the
    fields through which [Data] and [Host] are reached; they are the record
    projections here. *)
Record Options := {
  listItemRole : string;
  openMethod : option string;
  afterHighlightMethod : option string;
  beginningOfListMethod : option string;
  endOfListMethod : option string;
  optScrollToOnHighlight : bool;
  optFocusOnKeyboardNavigation : bool
}.

Definition defaultOptions : Options := {|
  listItemRole := "option";
  openMethod := None;
  afterHighlightMethod := None;
  beginningOfListMethod := None;
  endOfListMethod := None;
  optScrollToOnHighlight := true;
  optFocusOnKeyboardNavigation := false
|}.

(** ** The host's DOM *)

Record Element := {
  role : option string;   (* the role attribute, when present *)
  id : string             (* the id property: '' without an id attribute *)
}.

(** The descendants of the list element, in document order. *)
Definition ListElement := list Element.

(** A node: its position in document order and the element there. *)
Definition Node := (nat * Element)%type.

(** What [this[listElementKey]()] returns: nothing, an HTML element, or a
    mounted Vue component whose [$el] is the element. *)
Inductive ListRef :=
| RefNothing
| RefElement (el : ListElement)
| RefComponent (el : ListElement).

(** ** The mixin's data *)

Record Data := {
  highlightIndex : jsnum;
  highlightId : jsstr;
  scrollToOnHighlight : bool;
  focusOnKeyboardNavigation : bool
}.

Record Host := {
  listRef : ListRef;
  activeItem : Data -> option Element   (* this[activeItemKey] *)
}.

(** [data ()] *)
Definition data (o : Options) : Data := {|
  highlightIndex := Some (-1);
  highlightId := Some "";
  scrollToOnHighlight := optScrollToOnHighlight o;
  focusOnKeyboardNavigation := optFocusOnKeyboardNavigation o
|}.

(** ** Observable events and deferred continuations *)

Inductive Event :=
| ConsoleError                                    (* console.error in _itemsLength *)
| SetIndex (v : jsnum)                            (* this[indexKey] = v *)
| SetId (v : jsstr)                               (* this[idKey] = v *)
| CallOpen (m : string)                           (* this[openMethod](true) *)
| CallBeginningOfList (m : string)                (* this[beginningOfListMethod]() *)
| CallEndOfList (m : string)                      (* this[endOfListMethod]() *)
| AwaitNextTick                                   (* await this.$nextTick() *)
| CallAfterHighlight (m : string) (arg : jsnum)   (* this[afterHighlightMethod](arg) *)
| ScrollIntoView (el : Element) (container : option ListElement)
| Focus (el : Element).

(** The rest of an [async] method after its [await]. *)
Inductive Task :=
| AfterIndex (m : string) (num : Z)     (* this[m](num) *)
| AfterId (m : string) (x : string).    (* this[m](this._getItemIndex(x)) *)

(** How a call ends: normally, by raising (an [async] method then rejects its
    promise), or outside what the element model describes. *)
Inductive Outcome (A : Type) :=
| Value (a : A)
| Raise
| Unmodelled.
Arguments Value {A} a.
Arguments Raise {A}.
Arguments Unmodelled {A}.

(** ** The monad of the methods

    A method reads and writes the data, appends events and queues
    continuations. *)

Record Run (A : Type) := {
  result : A;
  state : Data;
  events : list Event;     (* oldest first *)
  deferred : list Task
}.
Arguments result {A} r.
Arguments state {A} r.
Arguments events {A} r.
Arguments deferred {A} r.

Definition M (A : Type) := Data -> Run A.

Definition ret {A} (a : A) : M A :=
  fun d => {| result := a; state := d; events := []; deferred := [] |}.

Definition bind {A B} (c : M A) (k : A -> M B) : M B :=
  fun d =>
    let 'Build_Run _ a d1 e1 t1 := c d in
    let 'Build_Run _ b d2 e2 t2 := k a d1 in
    {| result := b;
       state := d2;
       events := e1 ++ e2;
       deferred := t1 ++ t2 |}.

Notation "x <- c ;; k" := (bind c (fun x => k))
  (at level 61, c at next level, right associativity).
Notation "c ;; k" := (bind c (fun _ => k))
  (at level 61, right associativity).

Definition emit (e : Event) : M unit :=
  fun d => {| result := tt; state := d; events := [e]; deferred := [] |}.

Definition defer (t : Task) : M unit :=
  fun d => {| result := tt; state := d; events := []; deferred := [t] |}.

Definition read {A} (f : Data -> A) : M A :=
  fun d => {| result := f d; state := d; events := []; deferred := [] |}.

Definition update (f : Data -> Data) : M unit :=
  fun d => {| result := tt; state := f d; events := []; deferred := [] |}.

Definition with_index (v : jsnum) (d : Data) : Data := {|
  highlightIndex := v;
  highlightId := highlightId d;
  scrollToOnHighlight := scrollToOnHighlight d;
  focusOnKeyboardNavigation := focusOnKeyboardNavigation d
|}.

Definition with_id (v : jsstr) (d : Data) : Data := {|
  highlightIndex := highlightIndex d;
  highlightId := v;
  scrollToOnHighlight := scrollToOnHighlight d;
  focusOnKeyboardNavigation := focusOnKeyboardNavigation d
|}.

(** [this[indexKey] = v] *)
Definition set_index (v : jsnum) : M unit :=
  update (with_index v) ;; emit (SetIndex v).

(** [this[idKey] = v] *)
Definition set_id (v : jsstr) : M unit :=
  update (with_id v) ;; emit (SetId v).


(** ** The component over time

    The data, everything observed so far, and the continuations that wait for
    the next tick. *)
Record World := {
  vm : Data;
  log : list Event;
  queue : list Task
}.

(** The world a component starts in. *)
Definition init (o : Options) : World :=
  {| vm := data o; log := []; queue := [] |}.

(** A method called on the component. *)
Definition exec {A} (c : M A) (w : World) : A * World :=
  let r := c (vm w) in
  (result r,
   {| vm := state r; log := log w ++ events r; queue := queue w ++ deferred r |}).

(** ** DOM queries *)

Definition nodes (el : ListElement) : list Node :=
  combine (seq 0 (List.length el)) el.

Definition has_role (r : string) (n : Node) : bool :=
  match role (snd n) with
  | Some r' => String.eqb r' r
  | None => false
  end.

(** [el.querySelectorAll(`[role="${r}"]`)], for a role name [r] that the
    quoted attribute selector takes literally. *)
Definition querySelectorAll (r : string) (el : ListElement) : list Node :=
  filter (has_role r) (nodes el).

(** An ASCII letter or an underscore. *)
Definition is_name_start (c : ascii) : bool :=
  let n := nat_of_ascii c in
  ((65 <=? n) && (n <=? 90) || (97 <=? n) && (n <=? 122) || (n =? 95))%nat.

Definition is_name_char (c : ascii) : bool :=
  let n := nat_of_ascii c in
  (is_name_start c || (48 <=? n) && (n <=? 57) || (n =? 45))%nat.

Fixpoint all_name_chars (s : string) : bool :=
  match s with
  | EmptyString => true
  | String c r => is_name_char c && all_name_chars r
  end.

(** An identifier that the selector [#x] takes literally: an ASCII letter
    or an underscore, then ASCII letters, digits, hyphens and underscores.
    Every other string, and so every string with a byte outside ASCII, is
    left to [Unmodelled]. *)
Definition plain_ident (x : string) : bool :=
  match x with
  | EmptyString => false
  | String c r => is_name_start c && all_name_chars r
  end.

(** [el.querySelector(`#${x}`)]: the first descendant whose id is [x] when
    [x] is a plain identifier (ids are compared exactly, as in a document
    that is not in quirks mode); [#] alone is not a selector and raises a
    SyntaxError; other strings are parsed as selectors of another form, or
    not at all, which the element model does not describe: such a call may
    raise, or return normally with any element or none. *)
Definition querySelector (x : string) (el : ListElement) : Outcome (option Node) :=
  match x with
  | EmptyString => Raise
  | _ =>
    if plain_ident x
    then Value (find (fun n => String.eqb (id (snd n)) x) (nodes el))
    else Unmodelled
  end.

(** [listItems.indexOf(n)] from position [k] on; nodes are compared by
    identity. *)
Fixpoint indexOf_from (k : Z) (l : list Node) (n : nat) : Z :=
  match l with
  | [] => -1
  | m :: r => if Nat.eqb (fst m) n then k else indexOf_from (k + 1) r n
  end.

(** [listItems.indexOf(target)]; [null] is in no list. *)
Definition indexOf (l : list Node) (target : option Node) : Z :=
  match target with
  | Some n => indexOf_from 0 l (fst n)
  | None => -1
  end.

(** [nodeList[i]] *)
Definition item (l : list Node) (i : Z) : option Node :=
  if i <? 0 then None else nth_error l (Z.to_nat i).

(** ** The mixin's methods *)

(** The operations a host can call. *)
Inductive Op :=
| OnUpKey
| OnDownKey
| OnHomeKey
| OnEndKey
| JumpToBeginning
| JumpToEnd
| SetHighlightIndex (num : Z)
| SetHighlightId (x : string).

Section Methods.

Variable opts : Options.
Variable host : Host.

(** [this[listElementKey]()?.$el || this[listElementKey]()] *)
Definition _getListElement : option ListElement :=
  match listRef host with
  | RefNothing => None
  | RefElement el => Some el
  | RefComponent el => Some el
  end.

Definition _itemsLength : M Z :=
  match _getListElement with
  | None => emit ConsoleError ;; ret 0
  | Some el => ret (Z.of_nat (List.length (querySelectorAll (listItemRole opts) el)))
  end.

Definition _getItemIndex (x : string) : M (Outcome jsnum) :=
  match _getListElement with
  | None => ret (Value None)
  | Some el =>
    let listItems := querySelectorAll (listItemRole opts) el in
    match querySelector x el with
    | Value target => ret (Value (Some (indexOf listItems target)))
    | Raise => ret Raise
    | Unmodelled => ret Unmodelled
    end
  end.

Definition _getItemId (index : Z) : M jsstr :=
  match _getListElement with
  | None => ret None
  | Some el =>
    ret (option_map (fun n => id (snd n))
           (item (querySelectorAll (listItemRole opts) el) index))
  end.

Definition scrollActiveItemIntoViewIfNeeded : M unit :=
  enabled <- read scrollToOnHighlight ;;
  if negb enabled then ret tt
  else
    activeItemEl <- read (activeItem host) ;;
    match activeItemEl with
    | Some el => emit (ScrollIntoView el _getListElement)
    | None => ret tt
    end.

Definition focusActiveItemIfNeeded : M unit :=
  enabled <- read focusOnKeyboardNavigation ;;
  if negb enabled then ret tt
  else
    activeItemEl <- read (activeItem host) ;;
    match activeItemEl with
    | Some el => emit (Focus el)
    | None => ret tt
    end.

(** [async setHighlightIndex (num)], up to its [await]. *)
Definition setHighlightIndex (num : Z) : M unit :=
  set_index (Some num) ;;
  i <- _getItemId num ;;
  set_id i ;;
  n <- _itemsLength ;;
  match (if n =? 0 then None else truthy (afterHighlightMethod opts)) with
  | Some m => emit AwaitNextTick ;; defer (AfterIndex m num)
  | None => ret tt
  end.

(** [async setHighlightId (id)], up to its [await]. *)
Definition setHighlightId (x : string) : M (Outcome unit) :=
  set_id (Some x) ;;
  r <- _getItemIndex x ;;
  match r with
  | Value k =>
    set_index k ;;
    n <- _itemsLength ;;
    match (if n =? 0 then None else truthy (afterHighlightMethod opts)) with
    | Some m => emit AwaitNextTick ;; defer (AfterId m x) ;; ret (Value tt)
    | None => ret (Value tt)
    end
  | Raise => ret Raise
  | Unmodelled => ret Unmodelled
  end.

Definition jumpToBeginning : M unit :=
  setHighlightIndex 0.

Definition jumpToEnd : M unit :=
  n <- _itemsLength ;;
  setHighlightIndex (n - 1).

(** [if (name) { this[name](...) }] *)
Definition call_if_set (name : option string) (e : string -> Event) : M unit :=
  match truthy name with
  | Some m => emit (e m)
  | None => ret tt
  end.

(** A comparison with an [undefined] index is false ([NaN]), so both keys
    take their boundary branch then. The index is a double: its [- 1] and
    [+ 1] are the integer's while the result is between [-2^53] and [2^53],
    which is the range in which the sums below are to be read. *)
Definition onUpKey : M unit :=
  call_if_set (openMethod opts) CallOpen ;;
  index <- read highlightIndex ;;
  match index with
  | Some i =>
    if 0 <? i
    then setHighlightIndex (i - 1)
    else call_if_set (beginningOfListMethod opts) CallBeginningOfList
  | None => call_if_set (beginningOfListMethod opts) CallBeginningOfList
  end ;;
  scrollActiveItemIntoViewIfNeeded ;;
  focusActiveItemIfNeeded.

Definition onDownKey : M unit :=
  call_if_set (openMethod opts) CallOpen ;;
  index <- read highlightIndex ;;
  n <- _itemsLength ;;
  match index with
  | Some i =>
    if i <? n - 1
    then setHighlightIndex (i + 1)
    else call_if_set (endOfListMethod opts) CallEndOfList
  | None => call_if_set (endOfListMethod opts) CallEndOfList
  end ;;
  scrollActiveItemIntoViewIfNeeded ;;
  focusActiveItemIfNeeded.

Definition onHomeKey : M unit :=
  jumpToBeginning ;;
  scrollActiveItemIntoViewIfNeeded ;;
  focusActiveItemIfNeeded.

Definition onEndKey : M unit :=
  jumpToEnd ;;
  scrollActiveItemIntoViewIfNeeded ;;
  focusActiveItemIfNeeded.

(** The continuation of an [async] method, run when the tick resolves. *)
Definition run_task (t : Task) : M unit :=
  match t with
  | AfterIndex m num => emit (CallAfterHighlight m (Some num))
  | AfterId m x =>
    r <- _getItemIndex x ;;
    match r with
    | Value k => emit (CallAfterHighlight m k)
    | Raise => ret tt
    | Unmodelled => ret tt
    end
  end.

Fixpoint run_tasks (ts : list Task) : M unit :=
  match ts with
  | [] => ret tt
  | t :: r => run_task t ;; run_tasks r
  end.

(** The rendering pass settles: every waiting continuation runs, in the
    order in which it was queued. *)
Definition nextTick (w : World) : World :=
  let r := run_tasks (queue w) (vm w) in
  {| vm := state r; log := log w ++ events r; queue := deferred r |}.

(** One call of an operation. *)
Definition call (op : Op) : M (Outcome unit) :=
  match op with
  | OnUpKey => onUpKey ;; ret (Value tt)
  | OnDownKey => onDownKey ;; ret (Value tt)
  | OnHomeKey => onHomeKey ;; ret (Value tt)
  | OnEndKey => onEndKey ;; ret (Value tt)
  | JumpToBeginning => jumpToBeginning ;; ret (Value tt)
  | JumpToEnd => jumpToEnd ;; ret (Value tt)
  | SetHighlightIndex num => setHighlightIndex num ;; ret (Value tt)
  | SetHighlightId x => setHighlightId x
  end.

(** The number of role-matched items, as [_itemsLength] counts them. *)
Definition itemCount : Z :=
  match _getListElement with
  | None => 0
  | Some el => Z.of_nat (List.length (querySelectorAll (listItemRole opts) el))
  end.

(** The role-matched item at a position, if the list element exists and
    has one there. *)
Definition item_at (i : Z) : option Node :=
  match _getListElement with
  | None => None
  | Some el => item (querySelectorAll (listItemRole opts) el) i
  end.

(** The identifier of the item at a position, as [_getItemId] resolves it. *)
Definition itemId (i : Z) : jsstr :=
  option_map (fun n => id (snd n)) (item_at i).

(** The position of an identifier, as [_getItemIndex] resolves it. *)
Definition itemIndex (x : string) : Outcome jsnum :=
  match _getListElement with
  | None => Value None
  | Some el =>
    match querySelector x el with
    | Value target =>
      Value (Some (indexOf (querySelectorAll (listItemRole opts) el) target))
    | Raise => Raise
    | Unmodelled => Unmodelled
    end
  end.

(** The item that the stored index points at, if any. *)
Definition highlighted_item (d : Data) : option Node :=
  match highlightIndex d with
  | Some i => item_at i
  | None => None
  end.

End Methods.

Arguments truthy : simpl never.

(** ** Reading the events *)

Definition is_end_call (e : Event) : bool :=
  match e with CallEndOfList _ => true | _ => false end.

Definition is_beginning_call (e : Event) : bool :=
  match e with CallBeginningOfList _ => true | _ => false end.

Definition is_after_call (e : Event) : bool :=
  match e with CallAfterHighlight _ _ => true | _ => false end.

Definition is_diagnostic (e : Event) : bool :=
  match e with ConsoleError => true | _ => false end.

(** The events of a boundary hook: one call when the name is set. *)
Definition hook_call (name : option string) (e : string -> Event) : list Event :=
  match truthy name with
  | Some m => [e m]
  | None => []
  end.

(** The diagnostic of [_itemsLength]: logged when there is no list element. *)
Definition diagnostic (host : Host) : list Event :=
  match _getListElement host with
  | None => [ConsoleError]
  | Some _ => []
  end.

(** The after-highlight hook that a highlight change will call: the
    configured name, when the list has items. *)
Definition after_hook (opts : Options) (host : Host) : option string :=
  if itemCount opts host =? 0 then None else truthy (afterHighlightMethod opts).

(** The events of [scrollActiveItemIntoViewIfNeeded] and of
    [focusActiveItemIfNeeded] on given data. *)
Definition scroll_events (host : Host) (d : Data) : list Event :=
  if scrollToOnHighlight d
  then match activeItem host d with
       | Some el => [ScrollIntoView el (_getListElement host)]
       | None => []
       end
  else [].

Definition focus_events (host : Host) (d : Data) : list Event :=
  if focusOnKeyboardNavigation d
  then match activeItem host d with
       | Some el => [Focus el]
       | None => []
       end
  else [].

(** The data after [setHighlightIndex num]. *)
Definition highlighted_at (opts : Options) (host : Host) (num : Z) (d : Data) : Data :=
  with_id (itemId opts host num) (with_index (Some num) d).

(** The branch that [onDownKey] takes on given data. *)
Definition down_branch (opts : Options) (host : Host) (d : Data) : Run unit :=
  match highlightIndex d with
  | Some i =>
    if i <? itemCount opts host - 1
    then setHighlightIndex opts host (i + 1) d
    else call_if_set (endOfListMethod opts) CallEndOfList d
  | None => call_if_set (endOfListMethod opts) CallEndOfList d
  end.

(** The branch that [onUpKey] takes on given data. *)
Definition up_branch (opts : Options) (host : Host) (d : Data) : Run unit :=
  match highlightIndex d with
  | Some i =>
    if 0 <? i
    then setHighlightIndex opts host (i - 1) d
    else call_if_set (beginningOfListMethod opts) CallBeginningOfList d
  | None => call_if_set (beginningOfListMethod opts) CallBeginningOfList d
  end.

(** ** The component in use *)

(** A call whose identifier, if it takes one, is a plain identifier. *)
Definition plain_call (op : Op) : bool :=
  match op with
  | SetHighlightId x => plain_ident x
  | _ => true
  end.

(** One thing that happens to a component whose host passes plain
    identifiers only: a call with a plain argument, or the next tick. A call
    of [setHighlightId] with any other string is not a step. *)
Inductive plain_step (opts : Options) (host : Host) : World -> World -> Prop :=
| step_call (op : Op) (w : World) :
    plain_call op = true ->
    plain_step opts host w (snd (exec (call opts host op) w))
| step_tick (w : World) :
    plain_step opts host w (nextTick opts host w).

(** The worlds that such a component gets into from its initial one, its
    host's list staying the same. *)
Inductive plain_reachable (opts : Options) (host : Host) : World -> Prop :=
| reachable_init : plain_reachable opts host (init opts)
| reachable_step (w w' : World) :
    plain_reachable opts host w -> plain_step opts host w w' ->
    plain_reachable opts host w'.

(** With index [-1] the stored id names no item: it is the initial [''],
    undefined, or an identifier that [_getItemIndex] resolves to [-1]. *)
Definition idle_id_names_no_item (opts : Options) (host : Host) (d : Data) : Prop :=
  highlightIndex d = Some (-1) ->
  highlightId d = Some "" \/
  highlightId d = None \/
  exists x, highlightId d = Some x /\ itemIndex opts host x = Value (Some (-1)).

(** The stored id follows the stored index: at an index from 0 on, it is
    what [_getItemId] resolves there. *)
Definition id_follows_index (opts : Options) (host : Host) (d : Data) : Prop :=
  forall i, highlightIndex d = Some i -> 0 <= i ->
            highlightId d = itemId opts host i.

(** ** Sample hosts *)

(** [<li role="option" id="x">] *)
Definition li (x : string) : Element := {| role := Some "option"; id := x |}.

(** Options with every hook set. *)
Definition hooked : Options := {|
  listItemRole := "option";
  openMethod := Some "open";
  afterHighlightMethod := Some "afterHighlight";
  beginningOfListMethod := Some "onBeginning";
  endOfListMethod := Some "onEnd";
  optScrollToOnHighlight := true;
  optFocusOnKeyboardNavigation := false
|}.

Definition host_of (ref : ListRef) : Host :=
  {| listRef := ref; activeItem := fun _ => None |}.

(** A list with the items a, b and c. *)
Definition abc : Host := host_of (RefElement [li "a"; li "b"; li "c"]).

(** A host whose list accessor returns nothing. *)
Definition no_list : Host := host_of RefNothing.

(** A list element without items. *)
Definition empty_list : Host := host_of (RefElement []).

(** Two items that carry the same id. *)
Definition twins : Host := host_of (RefElement [li "x"; li "x"]).

(** ** Key presses in a row *)

(** The operations bound to keys, and the two jumps they are made of. *)
Definition is_key_op (op : Op) : bool :=
  match op with
  | SetHighlightIndex _ | SetHighlightId _ => false
  | _ => true
  end.

(** The four key handlers. *)
Definition is_key_handler (op : Op) : bool :=
  match op with
  | OnUpKey | OnDownKey | OnHomeKey | OnEndKey => true
  | _ => false
  end.

(** The data after a sequence of calls, each on the data the previous one
    left. *)
Definition run_ops (opts : Options) (host : Host) (ops : list Op) (d : Data) : Data :=
  fold_left (fun d op => state (call opts host op d)) ops d.

Definition is_open_call (e : Event) : bool :=
  match e with CallOpen _ => true | _ => false end.

Definition is_scroll_or_focus (e : Event) : bool :=
  match e with ScrollIntoView _ _ | Focus _ => true | _ => false end.

(** ** Validation messages and unique strings (the utilities module) *)

(** The constants that the utilities import from [./constants], a module
    that is not among the sources: they are parameters here.
    [VALIDATION_MESSAGE_TYPES] is the record of its three members. *)
Record Constants := {
  DEFAULT_PREFIX : string;
  DEFAULT_VALIDATION_MESSAGE_TYPE : string;
  ERROR : string;
  WARNING : string;
  SUCCESS : string
}.

(** An entry of a messages array: a string, an object with its [message] and
    [type] fields (each a string or undefined), or null/undefined. *)
Inductive Message :=
| Text (s : string)
| Entry (message : jsstr) (type : jsstr)
| Nullish.

(** A messages argument: null/undefined, or an array. *)
Definition Messages := option (list Message).

(** [message?.type] *)
Definition type_of (m : Message) : jsstr :=
  match m with
  | Entry _ t => t
  | Text _ => None
  | Nullish => None
  end.

(** [message?.type === t] for a string [t] *)
Definition has_type (t : string) (m : Message) : bool :=
  match type_of m with
  | Some t' => String.eqb t' t
  | None => false
  end.

(** [String(n)] for an integer below 1e21: its decimal digits. *)
Definition number_to_string (n : N) : string :=
  NilEmpty.string_of_uint (N.to_uint n).

(** The integers up to [2^53] are the values that [UNIQUE_ID_COUNTER], a
    double that starts at 0 and only ever takes [++], can hold: [++] is exact
    below [2^53], and at [2^53] the sum rounds back to [2^53]. *)
Definition increment (counter : N) : N :=
  if (counter <? 2 ^ 53)%N then (counter + 1)%N else counter.

Section Utilities.

Variable K : Constants.

(** [getUniqueString (prefix = DEFAULT_PREFIX)], in the state of the module's
    counter: the string returned and the counter left. *)
Definition getUniqueString (prefix : option string) (counter : N) : string * N :=
  let p := match prefix with
           | Some p => p
           | None => DEFAULT_PREFIX K
           end in
  ((p ++ number_to_string counter)%string, increment counter).

(** Calls of [getUniqueString] in a row, one per prefix. *)
Fixpoint getUniqueStrings (prefixes : list (option string)) (counter : N)
  : list string * N :=
  match prefixes with
  | [] => ([], counter)
  | p :: rest =>
    let (s, c1) := getUniqueString p counter in
    let (ss, c2) := getUniqueStrings rest c1 in
    (s :: ss, c2)
  end.

Definition formatMessages (messages : Messages) : list Message :=
  match messages with
  | None => []
  | Some ms =>
    map (fun message =>
           match message with
           | Text s => Entry (Some s) (Some (DEFAULT_VALIDATION_MESSAGE_TYPE K))
           | _ => message
           end) ms
  end.

Definition hasFormattedMessageOfType
    (formattedMessages : Messages) (messageType : jsstr) : bool :=
  match formattedMessages, truthy messageType with
  | Some ms, Some t => existsb (has_type t) ms
  | _, _ => false
  end.

(** The result is [null] ([None]) or one of the three types. *)
Definition getValidationState (formattedMessages : Messages) : jsstr :=
  match formattedMessages with
  | None => None
  | Some _ =>
    if hasFormattedMessageOfType formattedMessages (Some (ERROR K))
    then Some (ERROR K)
    else if hasFormattedMessageOfType formattedMessages (Some (WARNING K))
    then Some (WARNING K)
    else if hasFormattedMessageOfType formattedMessages (Some (SUCCESS K))
    then Some (SUCCESS K)
    else None
  end.

(** [!!message.message && message.type === validationState]; reading
    [message] of null or undefined raises a TypeError. *)
Definition shown (validationState : string) (m : Message) : Outcome bool :=
  match m with
  | Text _ => Value false
  | Entry msg t =>
    Value (match truthy msg, t with
           | Some _, Some t' => String.eqb t' validationState
           | _, _ => false
           end)
  | Nullish => Raise
  end.

(** [array.filter] with a callback that can raise: the first entry that
    raises ends the call. *)
Fixpoint filter_shown (validationState : string) (ms : list Message)
  : Outcome (list Message) :=
  match ms with
  | [] => Value []
  | m :: rest =>
    match shown validationState m with
    | Value keep =>
      match filter_shown validationState rest with
      | Value kept => Value (if keep then m :: kept else kept)
      | Raise => Raise
      | Unmodelled => Unmodelled
      end
    | Raise => Raise
    | Unmodelled => Unmodelled
    end
  end.

Definition filterFormattedMessages (formattedMessages : Messages)
  : Outcome (list Message) :=
  let validationState := getValidationState formattedMessages in
  match formattedMessages, truthy validationState with
  | Some ms, Some st => filter_shown st ms
  | _, _ => Value []
  end.

End Utilities.

(** The constants as the comment on [getValidationState] names them. *)
Definition sample_constants : Constants := {|
  DEFAULT_PREFIX := "dt";
  DEFAULT_VALIDATION_MESSAGE_TYPE := "error";
  ERROR := "error";
  WARNING := "warning";
  SUCCESS := "success"
|}.

(** No entry is null or undefined. *)
Definition no_nullish (ms : list Message) : Prop :=
  ~ In Nullish ms.

(** An entry that [filterFormattedMessages] keeps for a state: an object
    with a truthy message and that type. *)
Definition shown_entry (st : string) (m : Message) : Prop :=
  exists msg, m = Entry (Some msg) (Some st) /\ msg <> "".

(** ** Running the methods *)

Ltac run_bind := unfold bind; cbv beta iota.
Ltac projections := cbn [result state events deferred app].
Tactic Notation "run" constr(lem) := rewrite lem; cbv beta iota zeta; projections.

Section Runs.

Variable opts : Options.
Variable host : Host.

Lemma call_if_set_run (name : option string) (e : string -> Event) (d : Data) :
  call_if_set name e d =
  {| result := tt; state := d; events := hook_call name e; deferred := [] |}.
Proof. unfold call_if_set, hook_call. destruct (truthy name); reflexivity. Qed.

Lemma _itemsLength_run (d : Data) :
  _itemsLength opts host d =
  {| result := itemCount opts host; state := d;
     events := diagnostic host; deferred := [] |}.
Proof.
  unfold _itemsLength, itemCount, diagnostic.
  destruct (_getListElement host); reflexivity.
Qed.

Lemma _getItemId_run (i : Z) (d : Data) :
  _getItemId opts host i d =
  {| result := itemId opts host i; state := d; events := []; deferred := [] |}.
Proof.
  unfold _getItemId, itemId, item_at.
  destruct (_getListElement host); reflexivity.
Qed.

Lemma _getItemIndex_run (x : string) (d : Data) :
  _getItemIndex opts host x d =
  {| result := itemIndex opts host x; state := d; events := [];
     deferred := [] |}.
Proof.
  unfold _getItemIndex, itemIndex.
  destruct (_getListElement host) as [el|]; [|reflexivity].
  destruct (querySelector x el); reflexivity.
Qed.

Lemma scroll_run (d : Data) :
  scrollActiveItemIntoViewIfNeeded host d =
  {| result := tt; state := d; events := scroll_events host d; deferred := [] |}.
Proof.
  unfold scrollActiveItemIntoViewIfNeeded, scroll_events, read, ret, emit.
  run_bind.
  destruct (scrollToOnHighlight d); simpl; [|reflexivity].
  destruct (activeItem host d); reflexivity.
Qed.

Lemma focus_run (d : Data) :
  focusActiveItemIfNeeded host d =
  {| result := tt; state := d; events := focus_events host d; deferred := [] |}.
Proof.
  unfold focusActiveItemIfNeeded, focus_events, read, ret, emit.
  run_bind.
  destruct (focusOnKeyboardNavigation d); simpl; [|reflexivity].
  destruct (activeItem host d); reflexivity.
Qed.

Lemma set_index_run (v : jsnum) (d : Data) :
  set_index v d =
  {| result := tt; state := with_index v d; events := [SetIndex v];
     deferred := [] |}.
Proof. reflexivity. Qed.

Lemma set_id_run (v : jsstr) (d : Data) :
  set_id v d =
  {| result := tt; state := with_id v d; events := [SetId v];
     deferred := [] |}.
Proof. reflexivity. Qed.

Lemma setHighlightIndex_run (num : Z) (d : Data) :
  setHighlightIndex opts host num d =
  {| result := tt;
     state := highlighted_at opts host num d;
     events := [SetIndex (Some num); SetId (itemId opts host num)]
               ++ diagnostic host
               ++ match after_hook opts host with
                  | Some _ => [AwaitNextTick]
                  | None => []
                  end;
     deferred := match after_hook opts host with
                 | Some m => [AfterIndex m num]
                 | None => []
                 end |}.
Proof.
  unfold setHighlightIndex. run_bind.
  run set_index_run. run _getItemId_run. run set_id_run.
  run _itemsLength_run.
  unfold after_hook, highlighted_at.
  destruct (itemCount opts host =? 0); [|destruct (truthy _)];
    simpl; rewrite ?app_nil_r; reflexivity.
Qed.

(** [onDownKey] in one equation: the branch taken, then the scroll and
    focus effects on the data the branch leaves. *)
Lemma onDownKey_run (d : Data) :
  onDownKey opts host d =
  let b := down_branch opts host d in
  {| result := tt;
     state := state b;
     events := hook_call (openMethod opts) CallOpen ++ diagnostic host
               ++ events b
               ++ scroll_events host (state b) ++ focus_events host (state b);
     deferred := deferred b |}.
Proof.
  unfold onDownKey, down_branch. run_bind.
  run call_if_set_run. unfold read. cbv beta iota.
  run _itemsLength_run.
  destruct (highlightIndex d) as [i|]; [destruct (i <? _)|];
    [run setHighlightIndex_run | run call_if_set_run | run call_if_set_run];
    run scroll_run; run focus_run; cbv zeta; projections;
    rewrite ?app_nil_r, <- ?app_assoc; reflexivity.
Qed.

Lemma onUpKey_run (d : Data) :
  onUpKey opts host d =
  let b := up_branch opts host d in
  {| result := tt;
     state := state b;
     events := hook_call (openMethod opts) CallOpen
               ++ events b
               ++ scroll_events host (state b) ++ focus_events host (state b);
     deferred := deferred b |}.
Proof.
  unfold onUpKey, up_branch. run_bind.
  run call_if_set_run. unfold read. cbv beta iota.
  destruct (highlightIndex d) as [i|]; [destruct (0 <? i)|];
    [run setHighlightIndex_run | run call_if_set_run | run call_if_set_run];
    run scroll_run; run focus_run; cbv zeta; projections;
    rewrite ?app_nil_r, <- ?app_assoc; reflexivity.
Qed.

Lemma jumpToEnd_run (d : Data) :
  jumpToEnd opts host d =
  let b := setHighlightIndex opts host (itemCount opts host - 1) d in
  {| result := tt; state := state b;
     events := diagnostic host ++ events b; deferred := deferred b |}.
Proof.
  unfold jumpToEnd. run_bind. run _itemsLength_run.
  run setHighlightIndex_run. reflexivity.
Qed.

Lemma onHomeKey_run (d : Data) :
  onHomeKey opts host d =
  let b := setHighlightIndex opts host 0 d in
  {| result := tt; state := state b;
     events := events b
               ++ scroll_events host (state b) ++ focus_events host (state b);
     deferred := deferred b |}.
Proof.
  unfold onHomeKey, jumpToBeginning. run_bind.
  run setHighlightIndex_run. run scroll_run. run focus_run.
  cbv zeta; projections. rewrite ?app_nil_r, <- ?app_assoc. reflexivity.
Qed.

Lemma onEndKey_run (d : Data) :
  onEndKey opts host d =
  let b := jumpToEnd opts host d in
  {| result := tt; state := state b;
     events := events b
               ++ scroll_events host (state b) ++ focus_events host (state b);
     deferred := deferred b |}.
Proof.
  unfold onEndKey. run_bind.
  run jumpToEnd_run. run scroll_run. run focus_run.
  cbv zeta; projections. rewrite ?app_nil_r, <- ?app_assoc. reflexivity.
Qed.

Lemma setHighlightId_run (x : string) (d : Data) :
  setHighlightId opts host x d =
  match itemIndex opts host x with
  | Value k =>
    {| result := Value tt;
       state := with_index k (with_id (Some x) d);
       events := [SetId (Some x); SetIndex k]
                 ++ diagnostic host
                 ++ match after_hook opts host with
                    | Some _ => [AwaitNextTick]
                    | None => []
                    end;
       deferred := match after_hook opts host with
                   | Some m => [AfterId m x]
                   | None => []
                   end |}
  | Raise =>
    {| result := Raise; state := with_id (Some x) d;
       events := [SetId (Some x)]; deferred := [] |}
  | Unmodelled =>
    {| result := Unmodelled; state := with_id (Some x) d;
       events := [SetId (Some x)]; deferred := [] |}
  end.
Proof.
  unfold setHighlightId. run_bind.
  run set_id_run. run _getItemIndex_run.
  destruct (itemIndex opts host x) as [k| |]; try reflexivity.
  run set_index_run. run _itemsLength_run.
  unfold after_hook.
  destruct (itemCount opts host =? 0); [|destruct (truthy _)];
    simpl; rewrite ?app_nil_r; reflexivity.
Qed.

End Runs.

(** ** Hook calls among the events *)

Section Quiet.

Variable P : Event -> bool.

Lemma filter_hook_call (name : option string) (e : string -> Event) :
  (forall m, P (e m) = false) -> filter P (hook_call name e) = [].
Proof.
  intros H. unfold hook_call. destruct (truthy name); simpl; [rewrite H|]; auto.
Qed.

Lemma filter_hook_call_hit (name : option string) (e : string -> Event) :
  (forall m, P (e m) = true) -> filter P (hook_call name e) = hook_call name e.
Proof.
  intros H. unfold hook_call. destruct (truthy name); simpl; [rewrite H|]; auto.
Qed.

Lemma filter_diagnostic (host : Host) :
  P ConsoleError = false -> filter P (diagnostic host) = [].
Proof.
  intros H. unfold diagnostic.
  destruct (_getListElement host); simpl; [|rewrite H]; auto.
Qed.

Lemma filter_scroll_events (host : Host) (d : Data) :
  (forall el c, P (ScrollIntoView el c) = false) ->
  filter P (scroll_events host d) = [].
Proof.
  intros H. unfold scroll_events.
  destruct (scrollToOnHighlight d); [destruct (activeItem host d)|];
    simpl; [rewrite H| |]; auto.
Qed.

Lemma filter_focus_events (host : Host) (d : Data) :
  (forall el, P (Focus el) = false) ->
  filter P (focus_events host d) = [].
Proof.
  intros H. unfold focus_events.
  destruct (focusOnKeyboardNavigation d); [destruct (activeItem host d)|];
    simpl; [rewrite H| |]; auto.
Qed.

Lemma filter_setHighlightIndex (opts : Options) (host : Host) (num : Z) (d : Data) :
  P ConsoleError = false -> P AwaitNextTick = false ->
  (forall v, P (SetIndex v) = false) -> (forall v, P (SetId v) = false) ->
  filter P (events (setHighlightIndex opts host num d)) = [].
Proof.
  intros H1 H2 H3 H4. rewrite setHighlightIndex_run. projections.
  cbn [filter]. rewrite H3, H4, filter_app, filter_diagnostic by assumption.
  destruct (after_hook opts host); simpl; [rewrite H2|]; auto.
Qed.

End Quiet.

Ltac quiet :=
  rewrite ?filter_app;
  rewrite ?filter_hook_call, ?filter_diagnostic, ?filter_scroll_events,
    ?filter_focus_events, ?filter_setHighlightIndex by (intros; reflexivity);
  rewrite ?app_nil_r; cbn [app].


Lemma state_bind {A B} (c : M A) (k : A -> M B) (d : Data) :
  state (bind c k d) = state (k (result (c d)) (state (c d))).
Proof.
  unfold bind. destruct (c d) as [a d1 e1 t1]. projections.
  destruct (k a d1); reflexivity.
Qed.



(** One [onDownKey] from an integer index: below the last position the
    highlight moves down by one and the end-of-list hook is not called; at or
    past it the data is left alone and the hook, when set, is called once. *)
Lemma onDownKey_step (opts : Options) (host : Host) (d : Data) (i : Z) :
  highlightIndex d = Some i ->
  let r := onDownKey opts host d in
  let ends := filter is_end_call (events r) in
  (i < itemCount opts host - 1 ->
     state r = highlighted_at opts host (i + 1) d /\ ends = []) /\
  (itemCount opts host - 1 <= i ->
     state r = d /\ ends = hook_call (endOfListMethod opts) CallEndOfList).
Proof.
  intros Hi. cbv zeta. rewrite onDownKey_run. cbv zeta. projections.
  unfold down_branch. rewrite Hi.
  split; intros Hlt.
  - apply Z.ltb_lt in Hlt. rewrite Hlt. quiet.
    rewrite setHighlightIndex_run. auto.
  - apply Z.ltb_ge in Hlt. rewrite Hlt. rewrite call_if_set_run. projections.
    quiet. rewrite filter_hook_call_hit by reflexivity. auto.
Qed.



(** One [onUpKey] from an integer index: above 0 the highlight moves up by
    one and the beginning-of-list hook is not called; at 0 or below the data is
    left alone and the hook, when set, is called once. *)
Lemma onUpKey_step (opts : Options) (host : Host) (d : Data) (i : Z) :
  highlightIndex d = Some i ->
  let r := onUpKey opts host d in
  let begs := filter is_beginning_call (events r) in
  (0 < i ->
     state r = highlighted_at opts host (i - 1) d /\ begs = []) /\
  (i <= 0 ->
     state r = d /\
     begs = hook_call (beginningOfListMethod opts) CallBeginningOfList).
Proof.
  intros Hi. cbv zeta. rewrite onUpKey_run. cbv zeta. projections.
  unfold up_branch. rewrite Hi.
  split; intros Hlt.
  - apply Z.ltb_lt in Hlt. rewrite Hlt. quiet.
    rewrite setHighlightIndex_run. auto.
  - apply Z.ltb_ge in Hlt. rewrite Hlt. rewrite call_if_set_run. projections.
    quiet. rewrite filter_hook_call_hit by reflexivity. auto.
Qed.




(** ** Without a list element *)

Lemma absent_itemCount (opts : Options) (host : Host) :
  _getListElement host = None -> itemCount opts host = 0.
Proof. intros H. unfold itemCount. rewrite H. reflexivity. Qed.

Lemma absent_itemId (opts : Options) (host : Host) (i : Z) :
  _getListElement host = None -> itemId opts host i = None.
Proof. intros H. unfold itemId, item_at. rewrite H. reflexivity. Qed.

Lemma absent_itemIndex (opts : Options) (host : Host) (x : string) :
  _getListElement host = None -> itemIndex opts host x = Value None.
Proof. intros H. unfold itemIndex. rewrite H. reflexivity. Qed.



(** C8, as amended. Without a list element [_getItemIndex] and [_getItemId]
    return [undefined], write nothing and log nothing, whatever their
    argument; [_itemsLength] returns 0 and logs its diagnostic. *)
Theorem absent_list_resolution
    (opts : Options) (host : Host) (d : Data) (x : string) (i : Z) :
  _getListElement host = None ->
  _getItemIndex opts host x d
  = {| result := Value None; state := d; events := []; deferred := [] |} /\
  _getItemId opts host i d
  = {| result := None; state := d; events := []; deferred := [] |} /\
  _itemsLength opts host d
  = {| result := 0; state := d; events := [ConsoleError]; deferred := [] |}.
Proof.
  intros H.
  rewrite _getItemIndex_run, _getItemId_run, _itemsLength_run.
  rewrite absent_itemIndex, absent_itemId, absent_itemCount by assumption.
  unfold diagnostic. rewrite H. auto.
Qed.

Lemma absent_list_resolution_witness :
  _getListElement no_list = None /\
  events (_itemsLength hooked no_list (data hooked)) = [ConsoleError] /\
  result (_getItemId hooked no_list 0 (data hooked)) = None.
Proof.
  split; [reflexivity|].
  destruct (absent_list_resolution hooked no_list (data hooked) "a" 0 eq_refl)
    as (_ & H2 & H3).
  rewrite H2, H3. split; reflexivity.
Defined.

(** C8, as stated, fails: without a list element neither [_getItemId] nor
    [_getItemIndex] logs a diagnostic; they append no event at all. *)
Lemma resolution_logs_nothing_counterexample :
  _getListElement no_list = None /\
  filter is_diagnostic (events (_getItemId hooked no_list 0 (data hooked))) = [] /\
  filter is_diagnostic (events (_getItemIndex hooked no_list "a" (data hooked))) = [].
Proof. repeat split. Qed.




(** ** Highlighting a position *)

Lemma item_out_of_range (l : list Node) (i : Z) :
  i < 0 \/ Z.of_nat (List.length l) <= i -> item l i = None.
Proof.
  intros H. unfold item. destruct (Z.ltb_spec i 0); [reflexivity|].
  apply nth_error_None. lia.
Qed.

Lemma item_in_range (l : list Node) (i : Z) :
  0 <= i < Z.of_nat (List.length l) -> exists n, item l i = Some n.
Proof.
  intros H. unfold item. destruct (Z.ltb_spec i 0); [lia|].
  destruct (nth_error l (Z.to_nat i)) as [n|] eqn:Hn; [eauto|].
  apply nth_error_None in Hn. lia.
Qed.

Lemma item_at_out_of_range (opts : Options) (host : Host) (i : Z) :
  i < 0 \/ itemCount opts host <= i -> item_at opts host i = None.
Proof.
  unfold item_at, itemCount. destruct (_getListElement host); [|reflexivity].
  apply item_out_of_range.
Qed.

Lemma item_at_in_range (opts : Options) (host : Host) (i : Z) :
  0 <= i < itemCount opts host -> exists n, item_at opts host i = Some n.
Proof.
  unfold item_at, itemCount. destruct (_getListElement host); [|lia].
  apply item_in_range.
Qed.

Lemma present_diagnostic (opts : Options) (host : Host) :
  itemCount opts host <> 0 -> diagnostic host = [].
Proof.
  unfold itemCount, diagnostic. destruct (_getListElement host); congruence.
Qed.

Lemma run_tasks_state (opts : Options) (host : Host) (ts : list Task) (d : Data) :
  state (run_tasks opts host ts d) = d.
Proof.
  revert d. induction ts as [|t ts IH]; intros d; [reflexivity|].
  simpl. rewrite state_bind, IH.
  destruct t as [m num|m x]; [reflexivity|].
  unfold run_task. rewrite state_bind, _getItemIndex_run. projections.
  destruct (itemIndex opts host x); reflexivity.
Qed.

(** The tick runs hooks only: it leaves the data alone. *)
Lemma nextTick_vm (opts : Options) (host : Host) (w : World) :
  vm (nextTick opts host w) = vm w.
Proof. unfold nextTick. cbv zeta. cbn [vm]. apply run_tasks_state. Qed.

(** C6. After [setHighlightIndex i] for a position [i] of the list, at its
    [await] and also once the tick has run its continuation, the stored id is
    what [_getItemId i] returns on the same list: the id of the item there. *)
Theorem setHighlightIndex_stores_item_id
    (opts : Options) (host : Host) (w : World) (i : Z) :
  0 <= i < itemCount opts host ->
  let w1 := snd (exec (setHighlightIndex opts host i) w) in
  let w2 := nextTick opts host w1 in
  highlightId (vm w1) = result (_getItemId opts host i (vm w1)) /\
  highlightId (vm w2) = result (_getItemId opts host i (vm w2)) /\
  exists n, item_at opts host i = Some n /\
            highlightId (vm w2) = Some (id (snd n)).
Proof.
  intros Hi w1 w2.
  assert (H1 : highlightId (vm w1) = itemId opts host i).
  { subst w1. unfold exec. cbv zeta. cbn [snd vm].
    rewrite setHighlightIndex_run. reflexivity. }
  assert (H2 : highlightId (vm w2) = itemId opts host i).
  { subst w2. rewrite nextTick_vm. exact H1. }
  rewrite !_getItemId_run. projections.
  repeat split; auto.
  destruct (item_at_in_range opts host i Hi) as [n Hn].
  exists n. split; [exact Hn|]. rewrite H2. unfold itemId. rewrite Hn. reflexivity.
Qed.

Lemma setHighlightIndex_stores_item_id_witness :
  0 <= 1 < itemCount hooked abc /\
  highlightId (vm (snd (exec (setHighlightIndex hooked abc 1) (init hooked))))
  = result (_getItemId hooked abc 1
              (vm (snd (exec (setHighlightIndex hooked abc 1) (init hooked))))).
Proof.
  assert (H : 0 <= 1 < itemCount hooked abc) by (vm_compute; split; [discriminate|reflexivity]).
  split; [exact H|].
  apply (setHighlightIndex_stores_item_id hooked abc (init hooked) 1 H).
Defined.

(** C7. A component with no continuation waiting calls
    [setHighlightIndex i]. With the after-highlight hook set and a list that
    has items, the call writes the index and the id and stops at its [await];
    the tick then calls the hook, once, with [i], and writes nothing. With no
    hook set or no items, neither the call nor the tick calls the hook. *)
Theorem setHighlightIndex_after_hook
    (opts : Options) (host : Host) (w : World) (i : Z) :
  queue w = [] ->
  let w1 := snd (exec (setHighlightIndex opts host i) w) in
  let w2 := nextTick opts host w1 in
  vm w1 = highlighted_at opts host i (vm w) /\
  vm w2 = vm w1 /\
  queue w2 = [] /\
  (forall m,
     itemCount opts host <> 0 -> truthy (afterHighlightMethod opts) = Some m ->
     log w1 = log w ++ [SetIndex (Some i); SetId (itemId opts host i);
                        AwaitNextTick] /\
     log w2 = log w1 ++ [CallAfterHighlight m (Some i)]) /\
  (itemCount opts host = 0 \/ truthy (afterHighlightMethod opts) = None ->
     log w2 = log w ++ [SetIndex (Some i); SetId (itemId opts host i)]
                    ++ diagnostic host /\
     filter is_after_call (log w2) = filter is_after_call (log w)).
Proof.
  intros Hq w1 w2. subst w2 w1.
  unfold exec, nextTick. cbv zeta. cbn [snd vm log queue].
  rewrite setHighlightIndex_run. projections. rewrite Hq. cbn [app].
  rewrite run_tasks_state.
  split; [reflexivity|]. split; [reflexivity|].
  unfold after_hook.
  split; [|split].
  - destruct (itemCount opts host =? 0); [reflexivity|].
    destruct (truthy (afterHighlightMethod opts)); reflexivity.
  - intros m HN Hm. apply Z.eqb_neq in HN. rewrite HN, Hm.
    apply Z.eqb_neq in HN. rewrite (present_diagnostic opts host HN).
    split; reflexivity.
  - intros Hno.
    assert (Hh : (if itemCount opts host =? 0 then None
                  else truthy (afterHighlightMethod opts)) = None).
    { destruct Hno as [HN|Hm]; [rewrite HN; reflexivity|].
      rewrite Hm. destruct (itemCount opts host =? 0); reflexivity. }
    rewrite Hh. cbn [run_tasks ret events app]. rewrite !app_nil_r.
    split; [reflexivity|].
    rewrite filter_app. cbn [filter is_after_call].
    rewrite filter_diagnostic by reflexivity. apply app_nil_r.
Qed.

(** On the list a, b, c: the log of [setHighlightIndex 1] and of the tick
    after it. *)
Lemma setHighlightIndex_after_hook_witness :
  queue (init hooked) = [] /\
  log (nextTick hooked abc (snd (exec (setHighlightIndex hooked abc 1) (init hooked))))
  = [SetIndex (Some 1); SetId (Some "b"); AwaitNextTick;
     CallAfterHighlight "afterHighlight" (Some 1)].
Proof.
  split; [reflexivity|].
  destruct (setHighlightIndex_after_hook hooked abc (init hooked) 1 eq_refl)
    as (_ & _ & _ & H & _).
  destruct (H "afterHighlight") as [H1 H2];
    [vm_compute; discriminate | reflexivity |].
  rewrite H2, H1. reflexivity.
Defined.

(** C9. [setHighlightIndex i] stores exactly [i] for every integer [i]; the
    stored id is undefined whenever no role-matched item is at position [i],
    which is the case of every [i] below 0 or not below the item count. *)
Theorem setHighlightIndex_unclamped
    (opts : Options) (host : Host) (d : Data) (i : Z) :
  let r := setHighlightIndex opts host i d in
  highlightIndex (state r) = Some i /\
  (item_at opts host i = None -> highlightId (state r) = None) /\
  (i < 0 \/ itemCount opts host <= i -> highlightId (state r) = None).
Proof.
  cbv zeta. rewrite setHighlightIndex_run. projections.
  unfold highlighted_at, itemId. cbn [with_id with_index highlightIndex highlightId].
  split; [reflexivity|]. split.
  - intros H. rewrite H. reflexivity.
  - intros H. rewrite (item_at_out_of_range opts host i H). reflexivity.
Qed.

Lemma setHighlightIndex_unclamped_witness :
  item_at hooked abc 7 = None /\
  highlightIndex (state (setHighlightIndex hooked abc 7 (data hooked))) = Some 7 /\
  highlightId (state (setHighlightIndex hooked abc 7 (data hooked))) = None /\
  highlightIndex (state (setHighlightIndex hooked abc (-4) (data hooked))) = Some (-4) /\
  highlightId (state (setHighlightIndex hooked abc (-4) (data hooked))) = None.
Proof.
  destruct (setHighlightIndex_unclamped hooked abc (data hooked) 7) as (H1 & H2 & _).
  destruct (setHighlightIndex_unclamped hooked abc (data hooked) (-4)) as (H3 & _ & H4).
  split; [reflexivity|]. split; [exact H1|]. split; [apply H2; reflexivity|].
  split; [exact H3|]. apply H4. left. lia.
Defined.

(** ** The Down key on a list without items *)





(** ** Nodes and positions *)

Lemma in_combine_seq (l : ListElement) :
  forall (a n : nat) (e : Element),
    In (n, e) (combine (seq a (List.length l)) l) ->
    (a <= n)%nat /\ nth_error l (n - a) = Some e.
Proof.
  induction l as [|e0 l IH]; intros a n e Hin; simpl in Hin; [contradiction|].
  destruct Hin as [Heq|Hin].
  - injection Heq as <- <-. rewrite Nat.sub_diag. split; [lia|reflexivity].
  - apply IH in Hin. destruct Hin as [Hle Hnth].
    split; [lia|].
    replace (n - a)%nat with (S (n - S a)) by lia. exact Hnth.
Qed.

(** A node of the list element is the element at its position. *)
Lemma in_nodes (el : ListElement) (n : Node) :
  In n (nodes el) -> nth_error el (fst n) = Some (snd n).
Proof.
  destruct n as [p e]. intros Hin. apply in_combine_seq in Hin.
  destruct Hin as [_ Hnth]. rewrite Nat.sub_0_r in Hnth. exact Hnth.
Qed.

Lemma map_fst_combine_seq (l : ListElement) :
  forall a, map fst (combine (seq a (List.length l)) l) = seq a (List.length l).
Proof.
  induction l as [|e l IH]; intros a; simpl; [reflexivity|].
  rewrite IH. reflexivity.
Qed.

(** Keeping the nodes of one role keeps their positions distinct. *)
Lemma distinct_positions_by_role (r : string) (l : list Node) :
  NoDup (map fst l) -> NoDup (map fst (filter (has_role r) l)).
Proof.
  intros Hnd. induction l as [|m l IH]; simpl; [constructor|].
  simpl in Hnd. apply NoDup_cons_iff in Hnd. destruct Hnd as [Hfresh Hnd].
  destruct (has_role r m); simpl; [|auto].
  constructor; [|auto].
  intros Hin. apply Hfresh.
  apply in_map_iff in Hin. destruct Hin as (b & Hb & Hbin).
  apply filter_In in Hbin. apply in_map_iff. exists b. tauto.
Qed.

(** The role-matched items are distinct nodes. *)
Lemma NoDup_items (r : string) (el : ListElement) :
  NoDup (map fst (querySelectorAll r el)).
Proof.
  unfold querySelectorAll. apply distinct_positions_by_role.
  unfold nodes. rewrite map_fst_combine_seq. apply seq_NoDup.
Qed.

Lemma in_items (r : string) (el : ListElement) (n : Node) :
  In n (querySelectorAll r el) -> In n (nodes el).
Proof. unfold querySelectorAll. intros H. apply filter_In in H. tauto. Qed.

Lemma indexOf_from_range (l : list Node) (n : nat) :
  forall z, indexOf_from z l n = -1 \/ z <= indexOf_from z l n.
Proof.
  induction l as [|m l IH]; intros z; simpl; [auto|].
  destruct (Nat.eqb (fst m) n); [right; lia|].
  destruct (IH (z + 1)); [auto|right; lia].
Qed.

(** A position that [indexOf] returns holds the node that was looked for. *)
Lemma indexOf_from_found (l : list Node) (n : nat) :
  forall z, 0 <= z -> z <= indexOf_from z l n ->
    exists m, nth_error l (Z.to_nat (indexOf_from z l n - z)) = Some m /\
              fst m = n.
Proof.
  induction l as [|m l IH]; intros z Hz Hle; simpl in *; [lia|].
  destruct (Nat.eqb_spec (fst m) n) as [Heq|Hne].
  - rewrite Z.sub_diag. simpl. eauto.
  - destruct (indexOf_from_range l n (z + 1)) as [Hm|Hge]; [lia|].
    destruct (IH (z + 1)) as (m' & Hnth & Hfst); [lia|exact Hge|].
    exists m'. split; [|exact Hfst].
    replace (Z.to_nat (indexOf_from (z + 1) l n - z))
      with (S (Z.to_nat (indexOf_from (z + 1) l n - (z + 1)))) by lia.
    exact Hnth.
Qed.

(** Among distinct nodes [indexOf] returns the position of the node. *)
Lemma indexOf_from_nth (l : list Node) :
  NoDup (map fst l) ->
  forall (k : nat) (z : Z) (n : Node),
    nth_error l k = Some n -> indexOf_from z l (fst n) = z + Z.of_nat k.
Proof.
  induction l as [|m l IH]; intros Hnd k z n Hnth.
  - destruct k; discriminate.
  - simpl in Hnd. apply NoDup_cons_iff in Hnd. destruct Hnd as [Hnotin Hnd].
    destruct k as [|k]; simpl in Hnth.
    + injection Hnth as ->. simpl. rewrite Nat.eqb_refl. lia.
    + simpl. destruct (Nat.eqb_spec (fst m) (fst n)) as [Heq|Hne].
      * exfalso. apply Hnotin. rewrite Heq.
        apply in_map. eapply nth_error_In. exact Hnth.
      * rewrite (IH Hnd k (z + 1) n Hnth). lia.
Qed.

(** ** Highlighting an identifier *)

Lemma querySelector_plain (x : string) (el : ListElement) :
  plain_ident x = true ->
  querySelector x el
  = Value (find (fun n => String.eqb (id (snd n)) x) (nodes el)).
Proof.
  intros Hx. unfold querySelector. destruct x; [discriminate|].
  rewrite Hx. reflexivity.
Qed.

(** Whatever index [_getItemIndex] resolves from 0 on, the item there
    carries the identifier. *)
Lemma itemIndex_itemId (opts : Options) (host : Host) (x : string) (i : Z) :
  itemIndex opts host x = Value (Some i) -> 0 <= i ->
  itemId opts host i = Some x.
Proof.
  unfold itemIndex, itemId, item_at.
  destruct (_getListElement host) as [el|]; [|discriminate].
  destruct (querySelector x el) as [target| |] eqn:Hq; try discriminate.
  intros Hi Hpos. injection Hi as Hi.
  unfold querySelector in Hq. destruct x as [|c x]; [discriminate|].
  destruct (plain_ident (String c x)); [|discriminate].
  injection Hq as Hq.
  destruct target as [t|]; simpl in Hi; [|lia].
  apply find_some in Hq. destruct Hq as [Ht Hid].
  apply String.eqb_eq in Hid.
  destruct (indexOf_from_found (querySelectorAll (listItemRole opts) el) (fst t) 0)
    as (m & Hnth & Hfst); [lia | lia |].
  rewrite Hi, Z.sub_0_r in Hnth.
  unfold item. destruct (Z.ltb_spec i 0); [lia|].
  rewrite Hnth. simpl. f_equal.
  apply nth_error_In, in_items, in_nodes in Hnth.
  apply in_nodes in Ht. rewrite Hfst in Hnth.
  rewrite <- Hid. congruence.
Qed.

(** C5, as amended. When [x] is a plain identifier and the first descendant
    of the list element that carries it, in document order, is the
    role-matched item at position [k], [setHighlightId x] returns normally
    and stores index [k] and id [x]. *)
Theorem setHighlightId_finds_first
    (opts : Options) (host : Host) (d : Data)
    (el : ListElement) (x : string) (n : Node) (k : nat) :
  _getListElement host = Some el ->
  plain_ident x = true ->
  find (fun n => String.eqb (id (snd n)) x) (nodes el) = Some n ->
  nth_error (querySelectorAll (listItemRole opts) el) k = Some n ->
  let r := setHighlightId opts host x d in
  result r = Value tt /\
  highlightIndex (state r) = Some (Z.of_nat k) /\
  highlightId (state r) = Some x.
Proof.
  intros Hel Hx Hfind Hnth. cbv zeta.
  assert (Hidx : itemIndex opts host x = Value (Some (Z.of_nat k))).
  { unfold itemIndex. rewrite Hel, (querySelector_plain x el Hx), Hfind.
    unfold indexOf.
    rewrite (indexOf_from_nth _ (NoDup_items _ el) k 0 n Hnth).
    reflexivity. }
  rewrite setHighlightId_run, Hidx. repeat split.
Qed.

Lemma setHighlightId_finds_first_witness :
  _getListElement abc = Some [li "a"; li "b"; li "c"] /\
  plain_ident "b" = true /\
  highlightIndex (state (setHighlightId hooked abc "b" (data hooked))) = Some 1 /\
  highlightId (state (setHighlightId hooked abc "b" (data hooked))) = Some "b".
Proof.
  split; [reflexivity|]. split; [reflexivity|].
  destruct (setHighlightId_finds_first hooked abc (data hooked)
              [li "a"; li "b"; li "c"] "b" (1%nat, li "b") 1
              eq_refl eq_refl eq_refl eq_refl) as (_ & H1 & H2).
  split; [exact H1 | exact H2].
Defined.

(** C5, as stated, fails when two items carry the same id: "x" is the
    identifier of the item at position 1, and [setHighlightId "x"] stores
    index 0. *)
Lemma setHighlightId_twins_counterexample :
  itemId hooked twins 1 = Some "x" /\
  highlightIndex (state (setHighlightId hooked twins "x" (data hooked))) = Some 0 /\
  highlightIndex (state (setHighlightId hooked twins "x" (data hooked))) <> Some 1.
Proof. repeat split. discriminate. Qed.

(** ** The stored id follows the stored index *)

Lemma highlighted_at_follows (opts : Options) (host : Host) (num : Z) (d : Data) :
  id_follows_index opts host (highlighted_at opts host num d).
Proof.
  intros i Hi _. unfold highlighted_at in *.
  cbn [with_id with_index highlightIndex highlightId] in *. congruence.
Qed.

Lemma state_then_ret {A B} (c : M A) (b : B) (d : Data) :
  state ((c ;; ret b) d) = state (c d).
Proof. rewrite state_bind. reflexivity. Qed.

(** Every call that returns normally keeps the stored id in step with the
    stored index. *)
Lemma call_follows (opts : Options) (host : Host) (op : Op) (d : Data) :
  id_follows_index opts host d ->
  result (call opts host op d) = Value tt ->
  id_follows_index opts host (state (call opts host op d)).
Proof.
  intros Hinv Hres.
  destruct op; unfold call in *; rewrite ?state_then_ret.
  - rewrite onUpKey_run. cbv zeta. projections. unfold up_branch.
    destruct (highlightIndex d) as [i|]; [destruct (0 <? i)|];
      rewrite ?setHighlightIndex_run, ?call_if_set_run; projections;
      auto using highlighted_at_follows.
  - rewrite onDownKey_run. cbv zeta. projections. unfold down_branch.
    destruct (highlightIndex d) as [i|]; [destruct (i <? _)|];
      rewrite ?setHighlightIndex_run, ?call_if_set_run; projections;
      auto using highlighted_at_follows.
  - rewrite onHomeKey_run. cbv zeta. projections.
    rewrite setHighlightIndex_run. apply highlighted_at_follows.
  - rewrite onEndKey_run. cbv zeta. projections.
    rewrite jumpToEnd_run. cbv zeta. projections.
    rewrite setHighlightIndex_run. apply highlighted_at_follows.
  - unfold jumpToBeginning. rewrite setHighlightIndex_run.
    apply highlighted_at_follows.
  - rewrite jumpToEnd_run. cbv zeta. projections.
    rewrite setHighlightIndex_run. apply highlighted_at_follows.
  - rewrite setHighlightIndex_run. apply highlighted_at_follows.
  - rewrite setHighlightId_run in *.
    destruct (itemIndex opts host x) as [k| |] eqn:Hk; try discriminate.
    projections. intros i Hi Hpos.
    cbn [with_id with_index highlightIndex highlightId] in *. subst k.
    symmetry. apply (itemIndex_itemId opts host x i Hk Hpos).
Qed.

Lemma plain_call_returns (opts : Options) (host : Host) (op : Op) (d : Data) :
  plain_call op = true -> result (call opts host op d) = Value tt.
Proof.
  destruct op; intros Hop; unfold call;
    try (unfold bind, ret;
         match goal with |- context [?c d] => destruct (c d) end; reflexivity).
  simpl in Hop. rewrite setHighlightId_run. unfold itemIndex.
  destruct (_getListElement host) as [el|]; [|reflexivity].
  rewrite (querySelector_plain x el Hop). reflexivity.
Qed.

Lemma highlighted_at_idle (opts : Options) (host : Host) (num : Z) (d : Data) :
  idle_id_names_no_item opts host (highlighted_at opts host num d).
Proof.
  intros Hi. unfold highlighted_at in *.
  cbn [with_id with_index highlightIndex highlightId] in *.
  injection Hi as ->. right. left. unfold itemId.
  rewrite item_at_out_of_range; [reflexivity|]. left. lia.
Qed.

(** Every call that returns normally leaves, with index [-1], an id that
    names no item. *)
Lemma call_idle (opts : Options) (host : Host) (op : Op) (d : Data) :
  idle_id_names_no_item opts host d ->
  result (call opts host op d) = Value tt ->
  idle_id_names_no_item opts host (state (call opts host op d)).
Proof.
  intros Hinv Hres.
  destruct op; unfold call in *; rewrite ?state_then_ret.
  - rewrite onUpKey_run. cbv zeta. projections. unfold up_branch.
    destruct (highlightIndex d) as [i|]; [destruct (0 <? i)|];
      rewrite ?setHighlightIndex_run, ?call_if_set_run; projections;
      auto using highlighted_at_idle.
  - rewrite onDownKey_run. cbv zeta. projections. unfold down_branch.
    destruct (highlightIndex d) as [i|]; [destruct (i <? _)|];
      rewrite ?setHighlightIndex_run, ?call_if_set_run; projections;
      auto using highlighted_at_idle.
  - rewrite onHomeKey_run. cbv zeta. projections.
    rewrite setHighlightIndex_run. apply highlighted_at_idle.
  - rewrite onEndKey_run. cbv zeta. projections.
    rewrite jumpToEnd_run. cbv zeta. projections.
    rewrite setHighlightIndex_run. apply highlighted_at_idle.
  - unfold jumpToBeginning. rewrite setHighlightIndex_run.
    apply highlighted_at_idle.
  - rewrite jumpToEnd_run. cbv zeta. projections.
    rewrite setHighlightIndex_run. apply highlighted_at_idle.
  - rewrite setHighlightIndex_run. apply highlighted_at_idle.
  - rewrite setHighlightId_run in *.
    destruct (itemIndex opts host x) as [k| |] eqn:Hk; try discriminate.
    projections. intros Hi.
    cbn [with_id with_index highlightIndex highlightId] in *. subst k.
    right. right. exists x. auto.
Qed.

(** C4, as amended. Take the worlds reached from the initial one by ticks
    and by calls in which [setHighlightId] is given plain identifiers only,
    over an unchanged list. In each of them, when the index is [-1] the
    stored id names no item (it is the initial [''], undefined, or an
    identifier that [_getItemIndex] resolves to [-1]), and when the index is
    0 or more the stored id is what [_getItemId] resolves at that index (the
    id of the item there, undefined when there is none). *)
Theorem reachable_id_follows_index (opts : Options) (host : Host) (w : World) :
  plain_reachable opts host w ->
  (highlightIndex (vm w) = Some (-1) ->
     highlightId (vm w) = Some "" \/
     highlightId (vm w) = None \/
     exists x, highlightId (vm w) = Some x /\
               result (_getItemIndex opts host x (vm w)) = Value (Some (-1))) /\
  (forall i, highlightIndex (vm w) = Some i -> 0 <= i ->
     highlightId (vm w) = result (_getItemId opts host i (vm w))).
Proof.
  intros Hreach.
  assert (H : idle_id_names_no_item opts host (vm w) /\
              id_follows_index opts host (vm w)).
  { induction Hreach as [|w w' _ [IH1 IH2] Hstep].
    - split.
      + intros _. left. reflexivity.
      + intros i Hi Hpos. simpl in Hi. injection Hi as <-. lia.
    - destruct Hstep as [op w Hop|w].
      + unfold exec. cbv zeta. cbn [snd vm].
        pose proof (plain_call_returns opts host op (vm w) Hop) as Hres.
        split; [apply call_idle | apply call_follows]; assumption.
      + rewrite nextTick_vm. auto. }
  destruct H as [H1 H2]. split.
  - intros Hi. destruct (H1 Hi) as [Hid|[Hid|(x & Hid & Hx)]]; auto.
    right. right. exists x. rewrite _getItemIndex_run. auto.
  - intros i Hi Hpos. rewrite _getItemId_run. apply H2; assumption.
Qed.

(** On the list a, b, c: the End key, the Up key and a tick reach index 1
    with the id of the item there; [setHighlightId] of an identifier that no
    item carries then reaches index [-1] with that identifier. *)
Lemma reachable_id_follows_index_witness :
  let w1 := snd (exec (call hooked abc OnEndKey) (init hooked)) in
  let w2 := snd (exec (call hooked abc OnUpKey) w1) in
  let w3 := nextTick hooked abc w2 in
  let w4 := snd (exec (call hooked abc (SetHighlightId "z")) w3) in
  plain_reachable hooked abc w3 /\
  highlightIndex (vm w3) = Some 1 /\
  highlightId (vm w3) = result (_getItemId hooked abc 1 (vm w3)) /\
  plain_reachable hooked abc w4 /\
  highlightIndex (vm w4) = Some (-1) /\
  highlightId (vm w4) = Some "z".
Proof.
  cbv zeta.
  assert (Hreach : plain_reachable hooked abc
            (nextTick hooked abc
               (snd (exec (call hooked abc OnUpKey)
                       (snd (exec (call hooked abc OnEndKey) (init hooked))))))).
  { eapply reachable_step; [|apply step_tick].
    eapply reachable_step; [|apply step_call; reflexivity].
    eapply reachable_step; [|apply step_call; reflexivity].
    apply reachable_init. }
  assert (Hreach' : plain_reachable hooked abc
            (snd (exec (call hooked abc (SetHighlightId "z"))
               (nextTick hooked abc
                  (snd (exec (call hooked abc OnUpKey)
                          (snd (exec (call hooked abc OnEndKey) (init hooked)))))))))
    by (eapply reachable_step; [exact Hreach | apply step_call; reflexivity]).
  split; [exact Hreach|]. split; [reflexivity|].
  split; [apply (reachable_id_follows_index hooked abc _ Hreach);
          [reflexivity|lia]|].
  split; [exact Hreach'|]. split; [reflexivity|].
  destruct (reachable_id_follows_index hooked abc _ Hreach') as [H _].
  destruct (H eq_refl) as [Hid|[Hid|(x & Hid & _)]];
    [discriminate Hid | discriminate Hid |].
  vm_compute in Hid. injection Hid as <-. reflexivity.
Defined.

(** C4, as stated, fails: the Home key on a list element without items
    reaches a world whose index is 0 although no item is highlighted. *)
Lemma home_on_empty_list_counterexample :
  let w := snd (exec (call hooked empty_list OnHomeKey) (init hooked)) in
  plain_reachable hooked empty_list w /\
  highlighted_item hooked empty_list (vm w) = None /\
  highlightIndex (vm w) = Some 0 /\
  highlightIndex (vm w) <> Some (-1).
Proof.
  cbv zeta. split.
  - eapply reachable_step; [apply reachable_init|].
    apply step_call. reflexivity.
  - repeat split. discriminate.
Qed.

(** The empty string is no plain identifier: [setHighlightId ''] on the
    list a, b, c writes the id, raises on the selector [#] and leaves the
    index at 1, where the item has another id. *)
Example rejected_setHighlightId_keeps_index :
  let d := highlighted_at hooked abc 1 (data hooked) in
  let r := setHighlightId hooked abc "" d in
  result r = Raise /\
  highlightIndex (state r) = Some 1 /\
  highlightId (state r) = Some "" /\
  itemId hooked abc 1 = Some "b".
Proof. cbv zeta. repeat split. Qed.

(** ** Positions and identifiers resolve each other *)

(** X1. An index from 0 on that [_getItemIndex] returns for a plain
    identifier is a position at which [_getItemId] returns that identifier.
    (For a string that is a selector of another form, such as a list of
    selectors, the element found need not carry the string as its id.) *)
Theorem getItemIndex_then_getItemId
    (opts : Options) (host : Host) (d : Data) (x : string) (i : Z) :
  plain_ident x = true ->
  result (_getItemIndex opts host x d) = Value (Some i) ->
  0 <= i ->
  result (_getItemId opts host i d) = Some x.
Proof.
  intros _. rewrite _getItemIndex_run, _getItemId_run. projections.
  apply itemIndex_itemId.
Qed.

Lemma getItemIndex_then_getItemId_witness :
  plain_ident "c" = true /\
  result (_getItemIndex hooked abc "c" (data hooked)) = Value (Some 2) /\
  result (_getItemId hooked abc 2 (data hooked)) = Some "c".
Proof.
  split; [reflexivity|]. split; [reflexivity|].
  apply (getItemIndex_then_getItemId hooked abc (data hooked) "c" 2);
    [reflexivity | reflexivity | lia].
Defined.

Lemma item_some (l : list Node) (i : Z) (n : Node) :
  item l i = Some n -> 0 <= i /\ nth_error l (Z.to_nat i) = Some n.
Proof.
  unfold item. destruct (Z.ltb_spec i 0); [discriminate|]. auto.
Qed.

(** X2. When the item at a position carries a plain identifier that no
    other descendant of the list element carries, [_getItemIndex] of what
    [_getItemId] returns there is the position again. *)
Theorem getItemId_then_getItemIndex
    (opts : Options) (host : Host) (d : Data)
    (el : ListElement) (i : Z) (x : string) :
  _getListElement host = Some el ->
  result (_getItemId opts host i d) = Some x ->
  plain_ident x = true ->
  (forall n n', In n (nodes el) -> In n' (nodes el) ->
                id (snd n) = x -> id (snd n') = x -> n = n') ->
  result (_getItemIndex opts host x d) = Value (Some i).
Proof.
  intros Hel Hid Hx Huniq.
  rewrite _getItemId_run in Hid. rewrite _getItemIndex_run. projections.
  cbn [result] in Hid. unfold itemId, item_at in Hid. rewrite Hel in Hid.
  destruct (item (querySelectorAll (listItemRole opts) el) i) as [n|] eqn:Hn;
    [|discriminate].
  simpl in Hid. injection Hid as Hid.
  apply item_some in Hn. destruct Hn as [Hpos Hnth].
  assert (Hin : In n (nodes el)) by (eapply in_items, nth_error_In; exact Hnth).
  unfold itemIndex. rewrite Hel, (querySelector_plain x el Hx).
  destruct (find (fun n0 => String.eqb (id (snd n0)) x) (nodes el))
    as [n'|] eqn:Hfind.
  - apply find_some in Hfind. destruct Hfind as [Hin' Hid'].
    apply String.eqb_eq in Hid'.
    rewrite (Huniq n' n Hin' Hin Hid' Hid).
    unfold indexOf.
    rewrite (indexOf_from_nth _ (NoDup_items _ el) _ 0 n Hnth).
    do 2 f_equal. lia.
  - exfalso. apply (find_none _ _ Hfind) in Hin.
    rewrite Hid, String.eqb_refl in Hin. discriminate.
Qed.

Lemma getItemId_then_getItemIndex_witness :
  result (_getItemId hooked abc 1 (data hooked)) = Some "b" /\
  result (_getItemIndex hooked abc "b" (data hooked)) = Value (Some 1).
Proof.
  split; [reflexivity|].
  apply (getItemId_then_getItemIndex hooked abc (data hooked)
           [li "a"; li "b"; li "c"] 1 "b"); try reflexivity.
  intros n n' Hn Hn' Hi Hi'. simpl in Hn, Hn'.
  repeat (destruct Hn as [<-|Hn]; try discriminate Hi);
    try contradiction;
    repeat (destruct Hn' as [<-|Hn']; try discriminate Hi');
    try contradiction; reflexivity.
Defined.

Lemma absent_or_outside (opts : Options) (host : Host) (i : Z) :
  i < 0 \/ itemCount opts host <= i -> itemId opts host i = None.
Proof.
  intros H. unfold itemId. rewrite (item_at_out_of_range opts host i H).
  reflexivity.
Qed.

(** X3. [_getItemId] returns an identifier exactly at the positions from 0
    to one below what [_itemsLength] returns; elsewhere it returns
    undefined. *)
Theorem getItemId_defined_in_bounds
    (opts : Options) (host : Host) (d : Data) (i : Z) :
  (exists x, result (_getItemId opts host i d) = Some x) <->
  0 <= i < result (_itemsLength opts host d).
Proof.
  rewrite _getItemId_run, _itemsLength_run. projections. split.
  - intros [x Hx].
    destruct (Z_lt_le_dec i 0) as [Hneg|Hpos];
      [rewrite (absent_or_outside opts host i) in Hx by auto; discriminate|].
    destruct (Z_lt_le_dec i (itemCount opts host)) as [Hlt|Hge]; [lia|].
    rewrite (absent_or_outside opts host i) in Hx by auto. discriminate.
  - intros Hi. destruct (item_at_in_range opts host i Hi) as [n Hn].
    exists (id (snd n)). unfold itemId. rewrite Hn. reflexivity.
Qed.

Lemma getItemId_defined_in_bounds_witness :
  0 <= 2 < result (_itemsLength hooked abc (data hooked)) /\
  exists x, result (_getItemId hooked abc 2 (data hooked)) = Some x.
Proof.
  assert (H : 0 <= 2 < result (_itemsLength hooked abc (data hooked)))
    by (vm_compute; split; [discriminate|reflexivity]).
  split; [exact H|].
  apply (getItemId_defined_in_bounds hooked abc (data hooked) 2). exact H.
Defined.

(** ** Keys that undo each other *)

Lemma highlighted_at_back
    (opts : Options) (host : Host) (d : Data) (i j : Z) :
  highlightIndex d = Some i -> highlightId d = itemId opts host i ->
  highlighted_at opts host i (highlighted_at opts host j d) = d.
Proof.
  intros Hi Hid. destruct d as [ix idx sc fo]. simpl in Hi, Hid. subst.
  reflexivity.
Qed.

(** X4. At a position strictly inside the list, whose id is stored, the Down
    key followed by the Up key leaves the data as it was, and so does the Up
    key followed by the Down key; at the first position this holds for Down
    then Up, at the last for Up then Down. *)
Theorem down_and_up_undo_each_other
    (opts : Options) (host : Host) (d : Data) (i : Z) :
  highlightIndex d = Some i ->
  highlightId d = itemId opts host i ->
  (0 <= i < itemCount opts host - 1 ->
     state (onUpKey opts host (state (onDownKey opts host d))) = d) /\
  (0 < i <= itemCount opts host - 1 ->
     state (onDownKey opts host (state (onUpKey opts host d))) = d).
Proof.
  intros Hi Hid. split; intros Hin.
  - destruct (onDownKey_step opts host d i Hi) as [Hlo _].
    destruct Hlo as [Hs _]; [lia|]. rewrite Hs.
    destruct (onUpKey_step opts host (highlighted_at opts host (i + 1) d) (i + 1)
                eq_refl) as [Hlo _].
    destruct Hlo as [Hs' _]; [lia|]. rewrite Hs'.
    replace (i + 1 - 1) with i by lia.
    apply highlighted_at_back; assumption.
  - destruct (onUpKey_step opts host d i Hi) as [Hlo _].
    destruct Hlo as [Hs _]; [lia|]. rewrite Hs.
    destruct (onDownKey_step opts host (highlighted_at opts host (i - 1) d) (i - 1)
                eq_refl) as [Hlo _].
    destruct Hlo as [Hs' _]; [lia|]. rewrite Hs'.
    replace (i - 1 + 1) with i by lia.
    apply highlighted_at_back; assumption.
Qed.

Lemma down_and_up_undo_each_other_witness :
  let d := highlighted_at hooked abc 1 (data hooked) in
  highlightIndex d = Some 1 /\
  state (onUpKey hooked abc (state (onDownKey hooked abc d))) = d /\
  state (onDownKey hooked abc (state (onUpKey hooked abc d))) = d.
Proof.
  cbv zeta. split; [reflexivity|].
  destruct (down_and_up_undo_each_other hooked abc
              (highlighted_at hooked abc 1 (data hooked)) 1 eq_refl eq_refl)
    as [H1 H2].
  split; [apply H1 | apply H2]; vm_compute; split; try discriminate; reflexivity.
Defined.


(** ** Key presses stay in the list *)

Lemma result_then_ret {A B} (c : M A) (b : B) (d : Data) :
  result ((c ;; ret b) d) = b.
Proof.
  unfold bind, ret. destruct (c d) as [a d1 e1 t1]. reflexivity.
Qed.

Lemma key_op_returns (opts : Options) (host : Host) (op : Op) (d : Data) :
  is_key_op op = true -> result (call opts host op d) = Value tt.
Proof.
  destruct op; try discriminate; intros _; unfold call; apply result_then_ret.
Qed.

(** A key operation on a list with items keeps the index between [-1] and
    the last position. *)
Lemma key_op_index (opts : Options) (host : Host) (op : Op) (d : Data) (i : Z) :
  1 <= itemCount opts host ->
  is_key_op op = true ->
  highlightIndex d = Some i -> -1 <= i < itemCount opts host ->
  exists j, highlightIndex (state (call opts host op d)) = Some j /\
            -1 <= j < itemCount opts host.
Proof.
  intros HN Hop Hi Hin.
  destruct op; try discriminate; unfold call; rewrite state_then_ret.
  - destruct (onUpKey_step opts host d i Hi) as [Hlo Hhi].
    destruct (Z_lt_le_dec 0 i) as [Hc|Hc].
    + destruct (Hlo Hc) as [Hs _]. rewrite Hs. exists (i - 1).
      split; [reflexivity|lia].
    + destruct (Hhi Hc) as [Hs _]. rewrite Hs. eauto.
  - destruct (onDownKey_step opts host d i Hi) as [Hlo Hhi].
    destruct (Z_lt_le_dec i (itemCount opts host - 1)) as [Hc|Hc].
    + destruct (Hlo Hc) as [Hs _]. rewrite Hs. exists (i + 1).
      split; [reflexivity|lia].
    + destruct (Hhi Hc) as [Hs _]. rewrite Hs. eauto.
  - rewrite onHomeKey_run. cbv zeta. projections.
    rewrite setHighlightIndex_run. exists 0. split; [reflexivity|lia].
  - rewrite onEndKey_run. cbv zeta. projections.
    rewrite jumpToEnd_run. cbv zeta. projections.
    rewrite setHighlightIndex_run. exists (itemCount opts host - 1).
    split; [reflexivity|lia].
  - unfold jumpToBeginning. rewrite setHighlightIndex_run.
    exists 0. split; [reflexivity|lia].
  - rewrite jumpToEnd_run. cbv zeta. projections.
    rewrite setHighlightIndex_run. exists (itemCount opts host - 1).
    split; [reflexivity|lia].
Qed.

Lemma key_ops_invariant (opts : Options) (host : Host) (ops : list Op) :
  1 <= itemCount opts host ->
  forallb is_key_op ops = true ->
  forall d i,
    highlightIndex d = Some i -> -1 <= i < itemCount opts host ->
    id_follows_index opts host d ->
    (exists j, highlightIndex (run_ops opts host ops d) = Some j /\
               -1 <= j < itemCount opts host) /\
    id_follows_index opts host (run_ops opts host ops d).
Proof.
  intros HN. induction ops as [|op ops IH]; intros Hops d i Hi Hin Hinv.
  - simpl. eauto.
  - simpl in Hops. apply andb_prop in Hops. destruct Hops as [Hop Hops].
    destruct (key_op_index opts host op d i HN Hop Hi Hin) as (j & Hj & Hjin).
    simpl. apply (IH Hops _ j Hj Hjin).
    apply call_follows; [exact Hinv|]. apply key_op_returns. exact Hop.
Qed.

(** X6. On a list with at least one item, whatever sequence of the key
    handlers and the two jumps is called from the initial data, the index is
    [-1] or a position of the list, and at a position the stored id is the id
    of the item there. *)
Theorem key_presses_stay_in_list
    (opts : Options) (host : Host) (ops : list Op) :
  1 <= itemCount opts host ->
  forallb is_key_op ops = true ->
  let d := run_ops opts host ops (data opts) in
  exists i, highlightIndex d = Some i /\
            -1 <= i < itemCount opts host /\
            (0 <= i -> exists n, item_at opts host i = Some n /\
                                 highlightId d = Some (id (snd n))).
Proof.
  intros HN Hops d.
  destruct (key_ops_invariant opts host ops HN Hops (data opts) (-1))
    as [(i & Hi & Hin) Hinv]; [reflexivity | lia | |].
  { intros j Hj Hpos. simpl in Hj. injection Hj as <-. lia. }
  exists i. split; [exact Hi|]. split; [exact Hin|].
  intros Hpos. destruct (item_at_in_range opts host i) as [n Hn]; [lia|].
  exists n. split; [exact Hn|].
  fold d in Hinv. rewrite (Hinv i Hi Hpos). unfold itemId. rewrite Hn. reflexivity.
Qed.

Lemma key_presses_stay_in_list_witness :
  1 <= itemCount hooked abc /\
  exists i, highlightIndex
              (run_ops hooked abc [OnEndKey; OnDownKey; OnUpKey; OnHomeKey; OnUpKey]
                 (data hooked)) = Some i /\
            -1 <= i < itemCount hooked abc.
Proof.
  assert (H : 1 <= itemCount hooked abc) by (vm_compute; discriminate).
  split; [exact H|].
  destruct (key_presses_stay_in_list hooked abc
              [OnEndKey; OnDownKey; OnUpKey; OnHomeKey; OnUpKey] H eq_refl)
    as (i & Hi & Hin & _).
  exists i. split; [exact Hi | exact Hin].
Defined.


(** ** What a call shows to the host *)

Lemma events_bind {A B} (c : M A) (k : A -> M B) (d : Data) :
  events (bind c k d)
  = events (c d) ++ events (k (result (c d)) (state (c d))).
Proof.
  unfold bind. destruct (c d) as [a d1 e1 t1]. projections.
  destruct (k a d1); reflexivity.
Qed.

Lemma deferred_bind {A B} (c : M A) (k : A -> M B) (d : Data) :
  deferred (bind c k d)
  = deferred (c d) ++ deferred (k (result (c d)) (state (c d))).
Proof.
  unfold bind. destruct (c d) as [a d1 e1 t1]. projections.
  destruct (k a d1); reflexivity.
Qed.

Lemma events_then_ret {A B} (c : M A) (b : B) (d : Data) :
  events ((c ;; ret b) d) = events (c d).
Proof. rewrite events_bind. apply app_nil_r. Qed.

Lemma filter_scroll_events_hit (P : Event -> bool) (host : Host) (d : Data) :
  (forall el c, P (ScrollIntoView el c) = true) ->
  filter P (scroll_events host d) = scroll_events host d.
Proof.
  intros H. unfold scroll_events.
  destruct (scrollToOnHighlight d); [destruct (activeItem host d)|];
    simpl; [rewrite H| |]; auto.
Qed.

Lemma filter_focus_events_hit (P : Event -> bool) (host : Host) (d : Data) :
  (forall el, P (Focus el) = true) ->
  filter P (focus_events host d) = focus_events host d.
Proof.
  intros H. unfold focus_events.
  destruct (focusOnKeyboardNavigation d); [destruct (activeItem host d)|];
    simpl; [rewrite H| |]; auto.
Qed.

Ltac effects :=
  rewrite ?filter_app;
  rewrite ?filter_hook_call, ?filter_diagnostic, ?filter_setHighlightIndex
    by (intros; reflexivity);
  rewrite ?filter_scroll_events_hit, ?filter_focus_events_hit
    by (intros; reflexivity);
  rewrite ?app_nil_r; cbn [app].

(** X7. No operation changes the two flags. [setHighlightIndex],
    [setHighlightId] and the two jumps never scroll or focus. A key handler
    scrolls and then focuses, each when its flag is set and the host has an
    active item for the data that the handler leaves, and does so also when it
    moved nothing. *)
Theorem scroll_and_focus_follow_the_keys
    (opts : Options) (host : Host) (op : Op) (d : Data) :
  let r := call opts host op d in
  scrollToOnHighlight (state r) = scrollToOnHighlight d /\
  focusOnKeyboardNavigation (state r) = focusOnKeyboardNavigation d /\
  filter is_scroll_or_focus (events r)
  = if is_key_handler op
    then scroll_events host (state r) ++ focus_events host (state r)
    else [].
Proof.
  cbv zeta.
  destruct op; unfold call;
    rewrite ?state_then_ret, ?events_then_ret; cbn [is_key_handler].
  - rewrite onUpKey_run. cbv zeta. projections. unfold up_branch.
    destruct (highlightIndex d) as [i|]; [destruct (0 <? i)|];
      rewrite ?call_if_set_run; projections; effects;
      rewrite ?setHighlightIndex_run; auto.
  - rewrite onDownKey_run. cbv zeta. projections. unfold down_branch.
    destruct (highlightIndex d) as [i|]; [destruct (i <? _)|];
      rewrite ?call_if_set_run; projections; effects;
      rewrite ?setHighlightIndex_run; auto.
  - rewrite onHomeKey_run. cbv zeta. projections. effects.
    rewrite setHighlightIndex_run. auto.
  - rewrite onEndKey_run. cbv zeta. projections.
    rewrite jumpToEnd_run. cbv zeta. projections. effects.
    rewrite setHighlightIndex_run. auto.
  - unfold jumpToBeginning. effects. rewrite setHighlightIndex_run. auto.
  - rewrite jumpToEnd_run. cbv zeta. projections. effects.
    rewrite setHighlightIndex_run. auto.
  - effects. rewrite setHighlightIndex_run. auto.
  - rewrite setHighlightId_run.
    destruct (itemIndex opts host x); projections; cbn [filter is_scroll_or_focus];
      effects; try (destruct (after_hook opts host)); auto.
Qed.

(** X8. With an open hook set, the Up and the Down key call it first and
    once, whatever the index and the list; no other operation calls it. *)
Theorem open_hook_comes_first
    (opts : Options) (host : Host) (op : Op) (d : Data) (m : string) :
  truthy (openMethod opts) = Some m ->
  let r := call opts host op d in
  match op with
  | OnUpKey | OnDownKey =>
    exists rest, events r = CallOpen m :: rest /\
                 filter is_open_call rest = []
  | _ => filter is_open_call (events r) = []
  end.
Proof.
  intros Hm. cbv zeta.
  destruct op; unfold call; rewrite ?events_then_ret.
  - rewrite onUpKey_run. cbv zeta. projections.
    unfold hook_call at 1. rewrite Hm. cbn [app]. eexists. split; [reflexivity|].
    unfold up_branch.
    destruct (highlightIndex d) as [i|]; [destruct (0 <? i)|];
      rewrite ?call_if_set_run; projections; quiet; reflexivity.
  - rewrite onDownKey_run. cbv zeta. projections.
    unfold hook_call at 1. rewrite Hm. cbn [app]. eexists. split; [reflexivity|].
    unfold down_branch.
    destruct (highlightIndex d) as [i|]; [destruct (i <? _)|];
      rewrite ?call_if_set_run; projections; quiet; reflexivity.
  - rewrite onHomeKey_run. cbv zeta. projections. quiet. reflexivity.
  - rewrite onEndKey_run. cbv zeta. projections.
    rewrite jumpToEnd_run. cbv zeta. projections. quiet. reflexivity.
  - unfold jumpToBeginning. quiet. reflexivity.
  - rewrite jumpToEnd_run. cbv zeta. projections. quiet. reflexivity.
  - quiet. reflexivity.
  - rewrite setHighlightId_run.
    destruct (itemIndex opts host x); projections; cbn [filter is_open_call];
      quiet; try (destruct (after_hook opts host)); reflexivity.
Qed.

Lemma open_hook_comes_first_witness :
  truthy (openMethod hooked) = Some "open" /\
  exists rest, events (call hooked abc OnDownKey (data hooked))
               = CallOpen "open" :: rest /\
               filter is_open_call rest = [].
Proof.
  split; [reflexivity|].
  apply (open_hook_comes_first hooked abc OnDownKey (data hooked) "open").
  reflexivity.
Defined.

(** ** Hooks that wait for the tick *)

Lemma run_tasks_deferred (opts : Options) (host : Host) (ts : list Task) (d : Data) :
  deferred (run_tasks opts host ts d) = [].
Proof.
  revert d. induction ts as [|t ts IH]; intros d; [reflexivity|].
  simpl. rewrite deferred_bind, IH, app_nil_r.
  destruct t as [m num|m x]; [reflexivity|].
  unfold run_task. rewrite deferred_bind, _getItemIndex_run. projections.
  destruct (itemIndex opts host x); reflexivity.
Qed.






(** ** Identifiers that resolve to no item *)

Lemma indexOf_from_absent (l : list Node) (p : nat) :
  ~ In p (map fst l) -> forall z, indexOf_from z l p = -1.
Proof.
  induction l as [|n l IH]; intros Hnot z; simpl; [reflexivity|].
  simpl in Hnot.
  destruct (Nat.eqb_spec (fst n) p) as [Heq|Hne]; [tauto|].
  apply IH. tauto.
Qed.

Lemma not_an_item (r : string) (el : ListElement) (n : Node) :
  In n (nodes el) -> has_role r n = false ->
  ~ In (fst n) (map fst (querySelectorAll r el)).
Proof.
  intros Hin Hrole Hmem.
  apply in_map_iff in Hmem. destruct Hmem as (n' & Hfst & Hin').
  unfold querySelectorAll in Hin'. apply filter_In in Hin'.
  destruct Hin' as [Hin' Hrole'].
  apply in_nodes in Hin. apply in_nodes in Hin'. rewrite Hfst in Hin'.
  assert (Hsnd : snd n' = snd n) by congruence.
  unfold has_role in *. rewrite Hsnd in Hrole'. congruence.
Qed.

(** X10. On an existing list, [setHighlightId] of a plain identifier that no
    descendant carries, or whose first carrier in document order is not a
    role-matched item, returns normally and stores index [-1] together with
    that identifier. *)
Theorem setHighlightId_of_no_item
    (opts : Options) (host : Host) (d : Data) (el : ListElement) (x : string) :
  _getListElement host = Some el ->
  plain_ident x = true ->
  (forall n, find (fun n => String.eqb (id (snd n)) x) (nodes el) = Some n ->
             has_role (listItemRole opts) n = false) ->
  let r := setHighlightId opts host x d in
  result r = Value tt /\
  highlightIndex (state r) = Some (-1) /\
  highlightId (state r) = Some x.
Proof.
  intros Hel Hx Hfirst. cbv zeta.
  assert (Hidx : itemIndex opts host x = Value (Some (-1))).
  { unfold itemIndex. rewrite Hel, (querySelector_plain x el Hx).
    destruct (find (fun n => String.eqb (id (snd n)) x) (nodes el))
      as [n|] eqn:Hfind; [|reflexivity].
    unfold indexOf. rewrite indexOf_from_absent; [reflexivity|].
    apply not_an_item; [|apply Hfirst; reflexivity].
    apply find_some in Hfind. tauto. }
  rewrite setHighlightId_run, Hidx. repeat split.
Qed.

Lemma setHighlightId_of_no_item_witness :
  _getListElement abc = Some [li "a"; li "b"; li "c"] /\
  plain_ident "z" = true /\
  highlightIndex (state (setHighlightId hooked abc "z" (data hooked))) = Some (-1) /\
  highlightId (state (setHighlightId hooked abc "z" (data hooked))) = Some "z".
Proof.
  split; [reflexivity|]. split; [reflexivity|].
  destruct (setHighlightId_of_no_item hooked abc (data hooked)
              [li "a"; li "b"; li "c"] "z" eq_refl eq_refl) as (_ & H1 & H2).
  - intros n Hn. vm_compute in Hn. discriminate.
  - split; [exact H1 | exact H2].
Defined.

(** X11. On an existing list, [setHighlightId] of the empty identifier (the
    id of an element without id attribute) is not atomic: it writes the id,
    then raises on the selector, so that the index keeps its value, nothing
    is queued and no hook is called. *)
Theorem setHighlightId_empty_raises
    (opts : Options) (host : Host) (d : Data) (el : ListElement) :
  _getListElement host = Some el ->
  let r := setHighlightId opts host "" d in
  result r = Raise /\
  highlightId (state r) = Some "" /\
  highlightIndex (state r) = highlightIndex d /\
  events r = [SetId (Some "")] /\
  deferred r = [].
Proof.
  intros Hel. cbv zeta. rewrite setHighlightId_run.
  unfold itemIndex. rewrite Hel. repeat split.
Qed.

Lemma setHighlightId_empty_raises_witness :
  _getListElement abc = Some [li "a"; li "b"; li "c"] /\
  result (setHighlightId hooked abc "" (highlighted_at hooked abc 1 (data hooked)))
  = Raise /\
  highlightIndex
    (state (setHighlightId hooked abc "" (highlighted_at hooked abc 1 (data hooked))))
  = Some 1.
Proof.
  split; [reflexivity|].
  destruct (setHighlightId_empty_raises hooked abc
              (highlighted_at hooked abc 1 (data hooked))
              [li "a"; li "b"; li "c"] eq_refl) as (H1 & _ & H3 & _).
  split; [exact H1 | exact H3].
Defined.

(** X12. A component with no continuation waiting calls [setHighlightId],
    which returns normally, on a list with items and with the after-highlight
    hook set: the call writes the id, then the index, and stops at its
    [await]; the tick calls the hook once, with the index that was stored. *)
Theorem setHighlightId_after_hook
    (opts : Options) (host : Host) (w : World) (x : string) (m : string) :
  queue w = [] ->
  itemCount opts host <> 0 ->
  truthy (afterHighlightMethod opts) = Some m ->
  fst (exec (setHighlightId opts host x) w) = Value tt ->
  let w1 := snd (exec (setHighlightId opts host x) w) in
  let w2 := nextTick opts host w1 in
  log w2 = log w ++ [SetId (Some x); SetIndex (highlightIndex (vm w1));
                     AwaitNextTick;
                     CallAfterHighlight m (highlightIndex (vm w1))] /\
  vm w2 = vm w1 /\
  queue w2 = [].
Proof.
  intros Hq HN Hm Hres. cbv zeta.
  unfold exec, nextTick in *. cbv zeta in *. cbn [fst snd vm log queue] in *.
  rewrite run_tasks_state, run_tasks_deferred.
  rewrite setHighlightId_run in *.
  destruct (itemIndex opts host x) as [k| |] eqn:Hk; try discriminate.
  projections. rewrite Hq. cbn [app].
  unfold after_hook. apply Z.eqb_neq in HN. rewrite HN, Hm.
  apply Z.eqb_neq in HN. rewrite (present_diagnostic opts host HN).
  cbn [run_tasks run_task app].
  rewrite events_bind, events_bind, _getItemIndex_run. projections.
  rewrite Hk. cbn [emit ret events app with_index highlightIndex].
  rewrite <- app_assoc. repeat split.
Qed.

Lemma setHighlightId_after_hook_witness :
  queue (init hooked) = [] /\
  log (nextTick hooked abc (snd (exec (setHighlightId hooked abc "c") (init hooked))))
  = [SetId (Some "c"); SetIndex (Some 2); AwaitNextTick;
     CallAfterHighlight "afterHighlight" (Some 2)].
Proof.
  split; [reflexivity|].
  assert (HN : itemCount hooked abc <> 0) by (vm_compute; discriminate).
  destruct (setHighlightId_after_hook hooked abc (init hooked) "c" "afterHighlight"
              eq_refl HN eq_refl eq_refl) as (H & _).
  rewrite H. reflexivity.
Defined.

(** ** Formatting validation messages *)

(** X13. [formatMessages] returns the entries of the array position by
    position: a string becomes an object with that string as its message and
    the default type, every other entry is returned as it is. So the number
    and the order of the entries are kept, no bare string is returned, and
    formatting the result again changes nothing; without an array the result
    is the empty array. *)
Theorem formatMessages_is_idempotent (K : Constants) (messages : Messages) :
  (forall ms k,
     messages = Some ms ->
     nth_error (formatMessages K messages) k
     = match nth_error ms k with
       | Some (Text s) =>
         Some (Entry (Some s) (Some (DEFAULT_VALIDATION_MESSAGE_TYPE K)))
       | other => other
       end) /\
  (forall ms, messages = Some ms ->
     List.length (formatMessages K messages) = List.length ms) /\
  (messages = None -> formatMessages K messages = []) /\
  (forall s, ~ In (Text s) (formatMessages K messages)) /\
  formatMessages K (Some (formatMessages K messages)) = formatMessages K messages.
Proof.
  destruct messages as [ms|]; simpl.
  - split; [|split; [|split; [|split]]].
    + intros ms' k Hms. injection Hms as <-. rewrite nth_error_map.
      destruct (nth_error ms k) as [[s|msg t|]|]; reflexivity.
    + intros ms' Hms. injection Hms as <-. apply length_map.
    + discriminate.
    + intros s Hin. apply in_map_iff in Hin.
      destruct Hin as ([s'|msg t|] & Heq & _); discriminate.
    + rewrite map_map. apply map_ext. intros [s|msg t|]; reflexivity.
  - repeat split; try discriminate; auto.
Qed.

(** ** The validation state *)

Lemma truthy_some (t : string) : t <> "" -> truthy (Some t) = Some t.
Proof. destruct t; [congruence|reflexivity]. Qed.

Lemma truthy_inv (v : jsstr) (t : string) :
  truthy v = Some t -> v = Some t /\ t <> "".
Proof.
  destruct v as [[|c s]|]; simpl; try discriminate.
  intros H. injection H as <-. split; [reflexivity|discriminate].
Qed.

(** [hasFormattedMessageOfType] finds a type exactly when the type is truthy
    and some entry carries it. *)
Lemma hasFormattedMessageOfType_iff (ms : list Message) (t : string) :
  hasFormattedMessageOfType (Some ms) (Some t) = true <->
  t <> "" /\ exists m, In m ms /\ type_of m = Some t.
Proof.
  unfold hasFormattedMessageOfType. split.
  - destruct (truthy (Some t)) as [t'|] eqn:Ht; [|discriminate].
    apply truthy_inv in Ht. destruct Ht as [Heq Hne]. injection Heq as <-.
    intros Hex. apply existsb_exists in Hex. destruct Hex as (m & Hin & Hty).
    split; [exact Hne|]. exists m. split; [exact Hin|].
    unfold has_type in Hty. destruct (type_of m) as [t'|]; [|discriminate].
    apply String.eqb_eq in Hty. congruence.
  - intros (Hne & m & Hin & Hty). rewrite (truthy_some t Hne).
    apply existsb_exists. exists m. split; [exact Hin|].
    unfold has_type. rewrite Hty. apply String.eqb_refl.
Qed.

Lemma hasFormattedMessageOfType_perm (ms ms' : list Message) (t : string) :
  Permutation ms ms' ->
  hasFormattedMessageOfType (Some ms) (Some t)
  = hasFormattedMessageOfType (Some ms') (Some t).
Proof.
  intros Hperm. apply eq_true_iff_eq.
  rewrite !hasFormattedMessageOfType_iff.
  split; intros (Hne & m & Hin & Hty); (split; [exact Hne|]); exists m;
    (split; [|exact Hty]).
  - eapply Permutation_in; eassumption.
  - eapply Permutation_in; [apply Permutation_sym|]; eassumption.
Qed.

(** X14. The validation state does not depend on the order of the
    messages. *)
Theorem getValidationState_ignores_order
    (K : Constants) (ms ms' : list Message) :
  Permutation ms ms' ->
  getValidationState K (Some ms) = getValidationState K (Some ms').
Proof.
  intros Hperm. unfold getValidationState.
  rewrite !(hasFormattedMessageOfType_perm ms ms' _ Hperm). reflexivity.
Qed.

Lemma getValidationState_ignores_order_witness :
  let ms := [Entry (Some "saved") (Some "success");
             Entry (Some "too long") (Some "error")] in
  Permutation ms (rev ms) /\
  getValidationState sample_constants (Some ms)
  = getValidationState sample_constants (Some (rev ms)).
Proof.
  cbv zeta.
  assert (H : Permutation
                [Entry (Some "saved") (Some "success");
                 Entry (Some "too long") (Some "error")]
                (rev [Entry (Some "saved") (Some "success");
                      Entry (Some "too long") (Some "error")]))
    by apply Permutation_rev.
  split; [exact H|].
  apply (getValidationState_ignores_order sample_constants _ _ H).
Defined.

(** X15. A validation state that is not null is a truthy one of the three
    types and is the type of some message; it is null exactly when no message
    has a truthy one of the three types. *)
Theorem getValidationState_is_a_message_type
    (K : Constants) (ms : list Message) :
  (forall st, getValidationState K (Some ms) = Some st ->
     st <> "" /\
     (st = ERROR K \/ st = WARNING K \/ st = SUCCESS K) /\
     exists m, In m ms /\ type_of m = Some st) /\
  (getValidationState K (Some ms) = None <->
   forall m t, In m ms -> type_of m = Some t -> t <> "" ->
               t <> ERROR K /\ t <> WARNING K /\ t <> SUCCESS K).
Proof.
  unfold getValidationState.
  pose proof (hasFormattedMessageOfType_iff ms (ERROR K)) as HE.
  pose proof (hasFormattedMessageOfType_iff ms (WARNING K)) as HW.
  pose proof (hasFormattedMessageOfType_iff ms (SUCCESS K)) as HS.
  destruct (hasFormattedMessageOfType (Some ms) (Some (ERROR K))) eqn:He;
    [|destruct (hasFormattedMessageOfType (Some ms) (Some (WARNING K))) eqn:Hw;
      [|destruct (hasFormattedMessageOfType (Some ms) (Some (SUCCESS K))) eqn:Hs]].
  - destruct HE as [HE _]. destruct (HE eq_refl) as (Hne & m & Hin & Hty).
    split.
    + intros st Hst. injection Hst as <-.
      split; [exact Hne|]. split; [auto|]. exists m. auto.
    + split; [discriminate|]. intros Hall.
      destruct (Hall m _ Hin Hty Hne) as (Hc & _). congruence.
  - destruct HW as [HW _]. destruct (HW eq_refl) as (Hne & m & Hin & Hty).
    split.
    + intros st Hst. injection Hst as <-.
      split; [exact Hne|]. split; [auto|]. exists m. auto.
    + split; [discriminate|]. intros Hall.
      destruct (Hall m _ Hin Hty Hne) as (_ & Hc & _). congruence.
  - destruct HS as [HS _]. destruct (HS eq_refl) as (Hne & m & Hin & Hty).
    split.
    + intros st Hst. injection Hst as <-.
      split; [exact Hne|]. split; [auto|]. exists m. auto.
    + split; [discriminate|]. intros Hall.
      destruct (Hall m _ Hin Hty Hne) as (_ & _ & Hc). congruence.
  - split; [discriminate|]. split; [|reflexivity].
    intros _ m t Hin Hty Hne.
    repeat split; intros ->.
    + destruct HE as [_ HE]. discriminate HE. eauto.
    + destruct HW as [_ HW]. discriminate HW. eauto.
    + destruct HS as [_ HS]. discriminate HS. eauto.
Qed.

(** X16. The priority that the comment on [getValidationState] states: a
    message of the error type makes the state the error type whatever else
    there is; without one, a message of the warning type makes it the warning
    type. *)
Theorem error_outranks_warning_outranks_success
    (K : Constants) (ms : list Message) :
  (ERROR K <> "" -> (exists m, In m ms /\ type_of m = Some (ERROR K)) ->
     getValidationState K (Some ms) = Some (ERROR K)) /\
  (WARNING K <> "" -> (exists m, In m ms /\ type_of m = Some (WARNING K)) ->
   (forall m, In m ms -> type_of m <> Some (ERROR K)) ->
     getValidationState K (Some ms) = Some (WARNING K)).
Proof.
  unfold getValidationState. split.
  - intros Hne Hex.
    destruct (hasFormattedMessageOfType_iff ms (ERROR K)) as [_ H].
    rewrite H by auto. reflexivity.
  - intros Hne Hex Hnone.
    destruct (hasFormattedMessageOfType (Some ms) (Some (ERROR K))) eqn:He.
    + apply hasFormattedMessageOfType_iff in He.
      destruct He as (_ & m & Hin & Hty). exfalso. exact (Hnone m Hin Hty).
    + destruct (hasFormattedMessageOfType_iff ms (WARNING K)) as [_ H].
      rewrite H by auto. reflexivity.
Qed.

Lemma error_outranks_warning_outranks_success_witness :
  ERROR sample_constants <> "" /\
  getValidationState sample_constants
    (Some [Entry (Some "saved") (Some "success"); Nullish;
           Entry (Some "too long") (Some "error");
           Entry (Some "check this") (Some "warning")])
  = Some "error".
Proof.
  assert (Hne : ERROR sample_constants <> "") by discriminate.
  split; [exact Hne|].
  apply (error_outranks_warning_outranks_success sample_constants); [exact Hne|].
  exists (Entry (Some "too long") (Some "error")).
  split; [simpl; tauto | reflexivity].
Defined.

Lemma formatMessages_is_idempotent_witness :
  let ms := [Text "required"; Entry (Some "ok") (Some "success"); Nullish] in
  List.length (formatMessages sample_constants (Some ms)) = 3%nat /\
  formatMessages sample_constants (Some (formatMessages sample_constants (Some ms)))
  = formatMessages sample_constants (Some ms).
Proof.
  cbv zeta.
  destruct (formatMessages_is_idempotent sample_constants
              (Some [Text "required"; Entry (Some "ok") (Some "success"); Nullish]))
    as (_ & H2 & _ & _ & H5).
  split; [apply (H2 _ eq_refl) | exact H5].
Defined.

Lemma getValidationState_is_a_message_type_witness :
  getValidationState sample_constants
    (Some [Text "plain"; Entry (Some "m") (Some "info"); Nullish]) = None /\
  getValidationState sample_constants
    (Some [Entry None (Some "warning")]) = Some "warning" /\
  exists m, In m [Entry None (Some "warning")] /\ type_of m = Some "warning".
Proof.
  split; [|split; [reflexivity|]].
  - apply (getValidationState_is_a_message_type sample_constants).
    intros m t Hin Hty _. simpl in Hin.
    destruct Hin as [<-|[<-|[<-|[]]]]; try discriminate.
    injection Hty as <-. repeat split; discriminate.
  - destruct (getValidationState_is_a_message_type sample_constants
                [Entry None (Some "warning")]) as [H _].
    apply (H "warning" eq_refl).
Defined.

(** ** Filtering the formatted messages *)

Lemma shown_true_iff (st : string) (m : Message) :
  shown st m = Value true <-> shown_entry st m.
Proof.
  unfold shown_entry. split.
  - destruct m as [s|msg t|]; simpl; try discriminate.
    destruct (truthy msg) as [msg'|] eqn:Hmsg; [|discriminate].
    apply truthy_inv in Hmsg. destruct Hmsg as [-> Hne].
    destruct t as [t|]; [|discriminate].
    intros H. injection H as H. apply String.eqb_eq in H. subst t.
    exists msg'. auto.
  - intros (msg & -> & Hne). simpl. rewrite (truthy_some msg Hne).
    rewrite String.eqb_refl. reflexivity.
Qed.

(** What [filter_shown] returns holds exactly the entries that pass. *)
Lemma filter_shown_in (st : string) (ms : list Message) :
  forall kept, filter_shown st ms = Value kept ->
    forall m, In m kept <-> In m ms /\ shown st m = Value true.
Proof.
  induction ms as [|m0 ms IH]; simpl; intros kept Hk m.
  - injection Hk as <-. simpl. tauto.
  - destruct (shown st m0) as [keep| |] eqn:Hm0; try discriminate.
    destruct (filter_shown st ms) as [kept'| |]; try discriminate.
    injection Hk as <-. specialize (IH kept' eq_refl m).
    destruct keep; simpl; rewrite IH; split.
    + intros [<-|[Hin Hs]]; auto.
    + intros [[<-|Hin] Hs]; auto.
    + intros [Hin Hs]; auto.
    + intros [[<-|Hin] Hs]; [congruence|auto].
Qed.

(** [filter_shown] raises exactly on a null or undefined entry. *)
Lemma filter_shown_raises (st : string) (ms : list Message) :
  (filter_shown st ms = Raise <-> In Nullish ms) /\
  filter_shown st ms <> Unmodelled.
Proof.
  induction ms as [|m ms [IH1 IH2]]; simpl.
  - split; [split; [discriminate|tauto]|discriminate].
  - destruct m as [s|msg t|]; simpl; [| |split; [tauto|discriminate]];
      destruct (filter_shown st ms) as [kept| |] eqn:Hf;
      try (exfalso; apply IH2; reflexivity);
      (split; [|discriminate]).
    + split; [discriminate|].
      intros [H|H]; [discriminate|]. apply IH1 in H. discriminate.
    + split; [|reflexivity]. intros _. right. apply IH1. reflexivity.
    + split; [discriminate|].
      intros [H|H]; [discriminate|]. apply IH1 in H. discriminate.
    + split; [|reflexivity]. intros _. right. apply IH1. reflexivity.
Qed.

(** A validation state is never the empty string. *)
Lemma getValidationState_truthy (K : Constants) (ms : list Message) :
  truthy (getValidationState K (Some ms)) = getValidationState K (Some ms).
Proof.
  unfold getValidationState.
  pose proof (hasFormattedMessageOfType_iff ms (ERROR K)) as HE.
  pose proof (hasFormattedMessageOfType_iff ms (WARNING K)) as HW.
  pose proof (hasFormattedMessageOfType_iff ms (SUCCESS K)) as HS.
  destruct (hasFormattedMessageOfType (Some ms) (Some (ERROR K)));
    [apply truthy_some, HE; reflexivity|].
  destruct (hasFormattedMessageOfType (Some ms) (Some (WARNING K)));
    [apply truthy_some, HW; reflexivity|].
  destruct (hasFormattedMessageOfType (Some ms) (Some (SUCCESS K)));
    [apply truthy_some, HS; reflexivity|].
  reflexivity.
Qed.

(** X17. What [filterFormattedMessages] returns, when it returns: nothing
    when there is no validation state, and otherwise exactly the entries that
    are objects with a non-empty message and the type of the validation
    state, so that messages of two types are never shown together. *)
Theorem filterFormattedMessages_keeps_one_type
    (K : Constants) (ms kept : list Message) :
  filterFormattedMessages K (Some ms) = Value kept ->
  match getValidationState K (Some ms) with
  | Some st => forall m, In m kept <-> In m ms /\ shown_entry st m
  | None => kept = []
  end.
Proof.
  unfold filterFormattedMessages. cbv zeta.
  rewrite getValidationState_truthy.
  destruct (getValidationState K (Some ms)) as [st|].
  - intros Hk m. rewrite <- shown_true_iff. apply (filter_shown_in st ms kept Hk).
  - intros H. injection H as <-. reflexivity.
Qed.

Lemma filterFormattedMessages_keeps_one_type_witness :
  let ms := [Entry (Some "too long") (Some "error");
             Entry (Some "check this") (Some "warning");
             Entry (Some "") (Some "error")] in
  filterFormattedMessages sample_constants (Some ms)
  = Value [Entry (Some "too long") (Some "error")] /\
  ~ In (Entry (Some "check this") (Some "warning"))
       [Entry (Some "too long") (Some "error")].
Proof.
  cbv zeta. split; [reflexivity|].
  pose proof (filterFormattedMessages_keeps_one_type sample_constants
                [Entry (Some "too long") (Some "error");
                 Entry (Some "check this") (Some "warning");
                 Entry (Some "") (Some "error")]
                [Entry (Some "too long") (Some "error")] eq_refl) as H.
  simpl in H. intros Hin. apply H in Hin.
  destruct Hin as (_ & msg & Heq & _). discriminate.
Defined.

(** X18. [filterFormattedMessages] raises exactly when the messages have a
    validation state and hold a null or undefined entry, which
    [getValidationState] itself tolerates; without a validation state, or
    without messages, it returns the empty array. *)
Theorem filterFormattedMessages_raises_on_null
    (K : Constants) (ms : list Message) :
  (filterFormattedMessages K (Some ms) = Raise <->
   getValidationState K (Some ms) <> None /\ In Nullish ms) /\
  (getValidationState K (Some ms) = None ->
   filterFormattedMessages K (Some ms) = Value []) /\
  filterFormattedMessages K None = Value [].
Proof.
  unfold filterFormattedMessages. cbv zeta.
  rewrite getValidationState_truthy.
  destruct (getValidationState K (Some ms)) as [st|].
  - destruct (filter_shown_raises st ms) as [Hr _].
    split; [|split; [discriminate|reflexivity]].
    rewrite Hr. split; [intros H; split; [discriminate|exact H]|tauto].
  - split; [|split; reflexivity].
    split; [discriminate|tauto].
Qed.

Lemma filterFormattedMessages_raises_on_null_witness :
  getValidationState sample_constants
    (Some [Nullish; Entry (Some "too long") (Some "error")]) = Some "error" /\
  filterFormattedMessages sample_constants
    (Some [Nullish; Entry (Some "too long") (Some "error")]) = Raise /\
  filterFormattedMessages sample_constants
    (Some [Nullish; Entry (Some "note") (Some "info")]) = Value [].
Proof.
  split; [reflexivity|]. split.
  - destruct (filterFormattedMessages_raises_on_null sample_constants
                [Nullish; Entry (Some "too long") (Some "error")]) as (H & _).
    apply H. split; [discriminate | simpl; tauto].
  - destruct (filterFormattedMessages_raises_on_null sample_constants
                [Nullish; Entry (Some "note") (Some "info")]) as (_ & H & _).
    apply H. reflexivity.
Defined.

(** ** Strings as messages *)

Lemma format_strings (K : Constants) (ss : list string) :
  formatMessages K (Some (map Text ss))
  = map (fun s => Entry (Some s) (Some (DEFAULT_VALIDATION_MESSAGE_TYPE K))) ss.
Proof. simpl. rewrite map_map. reflexivity. Qed.

Lemma has_type_among_defaults (dflt t : string) (ss : list string) :
  hasFormattedMessageOfType
    (Some (map (fun s => Entry (Some s) (Some dflt)) ss)) (Some t) = true <->
  t <> "" /\ t = dflt /\ ss <> [].
Proof.
  rewrite hasFormattedMessageOfType_iff. split.
  - intros (Hne & m & Hin & Hty). apply in_map_iff in Hin.
    destruct Hin as (s & <- & Hin). simpl in Hty. injection Hty as <-.
    repeat split; auto. intros ->. contradiction.
  - intros (Hne & -> & Hss). split; [exact Hne|].
    destruct ss as [|s ss]; [congruence|].
    exists (Entry (Some s) (Some dflt)). simpl. auto.
Qed.

Lemma state_of_strings (K : Constants) (s : string) (ss : list string) :
  let dflt := DEFAULT_VALIDATION_MESSAGE_TYPE K in
  dflt <> "" ->
  dflt = ERROR K \/ dflt = WARNING K \/ dflt = SUCCESS K ->
  getValidationState K
    (Some (map (fun s => Entry (Some s) (Some dflt)) (s :: ss))) = Some dflt.
Proof.
  intros dflt Hne Hamong. unfold getValidationState.
  pose proof (has_type_among_defaults dflt (ERROR K) (s :: ss)) as HE.
  pose proof (has_type_among_defaults dflt (WARNING K) (s :: ss)) as HW.
  pose proof (has_type_among_defaults dflt (SUCCESS K) (s :: ss)) as HS.
  assert (Hss : s :: ss <> []) by discriminate.
  destruct (hasFormattedMessageOfType _ (Some (ERROR K))).
  { destruct HE as [HE _]. destruct (HE eq_refl) as (_ & -> & _). reflexivity. }
  destruct (hasFormattedMessageOfType _ (Some (WARNING K))).
  { destruct HW as [HW _]. destruct (HW eq_refl) as (_ & -> & _). reflexivity. }
  destruct (hasFormattedMessageOfType _ (Some (SUCCESS K))).
  { destruct HS as [HS _]. destruct (HS eq_refl) as (_ & -> & _). reflexivity. }
  exfalso. destruct Hamong as [H|[H|H]].
  - destruct HE as [_ HE]. discriminate HE. rewrite <- H. auto.
  - destruct HW as [_ HW]. discriminate HW. rewrite <- H. auto.
  - destruct HS as [_ HS]. discriminate HS. rewrite <- H. auto.
Qed.

Lemma filter_shown_strings (dflt : string) (ss : list string) :
  filter_shown dflt (map (fun s => Entry (Some s) (Some dflt)) ss)
  = Value (map (fun s => Entry (Some s) (Some dflt))
             (filter (fun s => negb (String.eqb s "")) ss)).
Proof.
  induction ss as [|s ss IH]; [reflexivity|].
  cbn [map filter_shown filter]. rewrite IH.
  destruct s as [|c s]; simpl; [reflexivity|].
  rewrite String.eqb_refl. reflexivity.
Qed.

(** X19. When the default message type is a truthy one of the three types,
    formatting an array of strings and filtering the result returns, in
    order, one entry of the default type for each non-empty string, and never
    raises. *)
Theorem strings_are_shown_with_the_default_type
    (K : Constants) (ss : list string) :
  let dflt := DEFAULT_VALIDATION_MESSAGE_TYPE K in
  dflt <> "" ->
  dflt = ERROR K \/ dflt = WARNING K \/ dflt = SUCCESS K ->
  filterFormattedMessages K (Some (formatMessages K (Some (map Text ss))))
  = Value (map (fun s => Entry (Some s) (Some dflt))
             (filter (fun s => negb (String.eqb s "")) ss)).
Proof.
  intros dflt Hne Hamong. subst dflt. rewrite format_strings.
  destruct ss as [|s ss].
  - unfold filterFormattedMessages, getValidationState, hasFormattedMessageOfType.
    simpl.
    destruct (truthy (Some (ERROR K))), (truthy (Some (WARNING K))),
      (truthy (Some (SUCCESS K))); reflexivity.
  - unfold filterFormattedMessages. cbv zeta.
    rewrite (state_of_strings K s ss Hne Hamong).
    rewrite (truthy_some _ Hne). apply filter_shown_strings.
Qed.

Lemma strings_are_shown_with_the_default_type_witness :
  DEFAULT_VALIDATION_MESSAGE_TYPE sample_constants <> "" /\
  filterFormattedMessages sample_constants
    (Some (formatMessages sample_constants
             (Some (map Text ["required"; ""; "too long"]))))
  = Value [Entry (Some "required") (Some "error");
           Entry (Some "too long") (Some "error")].
Proof.
  assert (Hne : DEFAULT_VALIDATION_MESSAGE_TYPE sample_constants <> "")
    by discriminate.
  split; [exact Hne|].
  rewrite (strings_are_shown_with_the_default_type sample_constants
             ["required"; ""; "too long"] Hne (or_introl eq_refl)).
  reflexivity.
Defined.

(** ** Unique strings *)

Lemma append_cancel (p a b : string) :
  (p ++ a)%string = (p ++ b)%string -> a = b.
Proof.
  induction p as [|c p IH]; simpl; intros H; [exact H|].
  injection H as H. auto.
Qed.

Lemma number_to_string_inj (a b : N) :
  number_to_string a = number_to_string b -> a = b.
Proof.
  unfold number_to_string. intros H.
  apply (f_equal NilEmpty.uint_of_string) in H.
  rewrite !NilEmpty.usu in H. injection H as H.
  apply (f_equal N.of_uint) in H.
  rewrite !DecimalN.Unsigned.of_to in H. exact H.
Qed.

(** Calls in a row with one prefix return that prefix followed by counter
    values from the first one on, and leave the counter advanced by their
    number. *)
Lemma getUniqueStrings_values (K : Constants) (p : option string) (n : nat) :
  forall c, (c + N.of_nat n <= 2 ^ 53)%N ->
    snd (getUniqueStrings K (repeat p n) c) = (c + N.of_nat n)%N /\
    forall s, In s (fst (getUniqueStrings K (repeat p n) c)) ->
      exists k, (c <= k)%N /\ s = fst (getUniqueString K p k).
Proof.
  induction n as [|n IH]; intros c Hc.
  - simpl. split; [lia|]. contradiction.
  - cbn [repeat getUniqueStrings getUniqueString].
    assert (Hinc : increment c = (c + 1)%N).
    { unfold increment. destruct (N.ltb_spec c (2 ^ 53)); [reflexivity|lia]. }
    rewrite Hinc.
    destruct (IH (c + 1)%N) as [Hsnd Hin]; [lia|].
    destruct (getUniqueStrings K (repeat p n) (c + 1)) as [ss c2].
    cbn [fst snd] in *. split; [lia|].
    intros s [<-|Hs].
    + exists c. split; [lia|reflexivity].
    + destruct (Hin s Hs) as (k & Hk & ->). exists k. split; [lia|reflexivity].
Qed.

(** X20. While the counter stays within the integers that a double counts
    one by one (up to [2^53]), calls of [getUniqueString] in a row with the
    same prefix, given or defaulted, return strings that all differ, and the
    counter advances by one per call. *)
Theorem getUniqueStrings_are_distinct
    (K : Constants) (p : option string) (n : nat) (c : N) :
  (c + N.of_nat n <= 2 ^ 53)%N ->
  NoDup (fst (getUniqueStrings K (repeat p n) c)) /\
  snd (getUniqueStrings K (repeat p n) c) = (c + N.of_nat n)%N.
Proof.
  intros Hc. split; [|apply getUniqueStrings_values; exact Hc].
  revert c Hc. induction n as [|n IH]; intros c Hc; [constructor|].
  cbn [repeat getUniqueStrings getUniqueString].
  assert (Hinc : increment c = (c + 1)%N).
  { unfold increment. destruct (N.ltb_spec c (2 ^ 53)); [reflexivity|lia]. }
  rewrite Hinc.
  pose proof (IH (c + 1)%N) as Hnd.
  destruct (getUniqueStrings_values K p n (c + 1)%N) as [_ Hin]; [lia|].
  destruct (getUniqueStrings K (repeat p n) (c + 1)) as [ss c2].
  cbn [fst] in *. constructor; [|apply Hnd; lia].
  intros Hmem. destruct (Hin _ Hmem) as (k & Hk & Heq).
  cbn [getUniqueString fst] in Heq.
  apply append_cancel, number_to_string_inj in Heq. lia.
Qed.

Lemma getUniqueStrings_are_distinct_witness :
  (9 + N.of_nat 3 <= 2 ^ 53)%N /\
  fst (getUniqueStrings sample_constants (repeat None 3) 9)
  = ["dt9"; "dt10"; "dt11"] /\
  NoDup (fst (getUniqueStrings sample_constants (repeat None 3) 9)).
Proof.
  assert (H : (9 + N.of_nat 3 <= 2 ^ 53)%N) by (vm_compute; discriminate).
  split; [exact H|]. split; [reflexivity|].
  apply (getUniqueStrings_are_distinct sample_constants None 3 9 H).
Defined.

(** A string with a byte outside ASCII is no plain identifier, so that
    nothing is stated about [setHighlightId] of it. *)
Example non_ascii_is_unmodelled :
  plain_ident "café" = false /\
  result (setHighlightId hooked abc "café" (data hooked)) = Unmodelled.
Proof. split; reflexivity. Qed.
